(** * orla_to_ascii: the image to ANSI character-art pipeline

    A shallow embedding of [pretty_scripts/orla_to_ascii.py].

    - Python [int] is [Z]; Python [float] is IEEE-754 binary64, taken from the
      Standard Library's [SpecFloat] (precision 53, maximal exponent 1024,
      rounding to nearest, ties to even), so every rounding the script
      performs is performed here as well.
    - Python [str] is a list of Unicode code points.
    - A raised exception is the [Raise] outcome of the [result] monad.
    - The Pillow calls of the script ([Image.open], [Image.resize],
      pixel access) are modelled in [Module Image].
    - What a run depends on beyond its arguments (the files, the memory,
      the interpreter's [int()]) is an [env]. *)

From Stdlib Require Import ZArith List Bool Lia String Ascii.
From Stdlib Require Import Floats Uint63 DecimalString.
Import ListNotations.

Open Scope Z_scope.

(* ================================================================== *)
(** ** Python values and exceptions *)

(** The exception classes that the script and its library calls can raise. *)
Inductive exn : Type :=
| ValueError (msg : string)
| OverflowError
| IndexError
| ZeroDivisionError
| MemoryError
| FileNotFoundError
| UnidentifiedImageError.

Inductive result (A : Type) : Type :=
| Ok (a : A)
| Raise (e : exn).

Arguments Ok {A} a.
Arguments Raise {A} e.

Definition bind {A B : Type} (m : result A) (k : A -> result B) : result B :=
  match m with
  | Ok a => k a
  | Raise e => Raise e
  end.

Declare Scope py_scope.
Delimit Scope py_scope with py.
Notation "x <- m ;; k" := (bind m (fun x => k))
  (at level 61, m at next level, right associativity) : py_scope.
Open Scope py_scope.

(** [for x in xs: ...] collecting one value per iteration; the first
    exception aborts the loop. *)
Fixpoint for_each {A B : Type} (f : A -> result B) (xs : list A)
  : result (list B) :=
  match xs with
  | [] => Ok []
  | x :: xs' => y <- f x ;; ys <- for_each f xs' ;; Ok (y :: ys)
  end.

(** [range(n)]: empty when [n <= 0]. *)
Definition range (n : Z) : list Z := map Z.of_nat (seq 0 (Z.to_nat n)).

(* ------------------------------------------------------------------ *)
(** *** Strings *)

Definition char := N.
Definition str := list char.

(** An ASCII literal of the source as a Python string. *)
Definition lit (s : string) : str := map N_of_ascii (list_ascii_of_string s).

(** [str(n)] for an integer, as used by the f-string. *)
Definition str_of_int (n : Z) : str := lit (NilZero.string_of_int (Z.to_int n)).

(** [sep.join(parts)]. *)
Fixpoint join (sep : str) (parts : list str) : str :=
  match parts with
  | [] => []
  | [p] => p
  | p :: rest => p ++ sep ++ join sep rest
  end.

(** [s[i]] on a string, with Python's negative indices. *)
Definition str_index (s : str) (i : Z) : result char :=
  let n := Z.of_nat (List.length s) in
  let j := if i <? 0 then i + n else i in
  if (j <? 0) || (n <=? j) then Raise IndexError
  else match nth_error s (Z.to_nat j) with
       | Some c => Ok c
       | None => Raise IndexError
       end.

(* ------------------------------------------------------------------ *)
(** *** Floats (binary64) *)

Module F64.

Definition t := spec_float.

Definition add : t -> t -> t := SFadd prec emax.
Definition mul : t -> t -> t := SFmul prec emax.
Definition div : t -> t -> t := SFdiv prec emax.

(** The nearest binary64 value of an integer. *)
Definition of_Z (z : Z) : t := binary_normalize prec emax z 0 false.

(** A decimal literal [num/den] of the source: both are exact in binary64
    and the quotient is correctly rounded, which is how Python reads the
    literal. *)
Definition dec (num den : Z) : t := div (of_Z num) (of_Z den).

(** [float(n)] for a Python int: [OverflowError] beyond the format. *)
Definition of_int (n : Z) : result t :=
  match of_Z n with
  | S754_infinity _ => Raise OverflowError
  | x => Ok x
  end.

(** [int(x)]: truncation toward zero; [int(inf)] raises [OverflowError]
    and [int(nan)] raises [ValueError]. *)
Definition to_int (x : t) : result Z :=
  match x with
  | S754_zero _ => Ok 0
  | S754_finite s m e =>
      let a := match e with
               | Zneg p => Z.shiftr (Zpos m) (Zpos p)
               | _ => Z.shiftl (Zpos m) e
               end in
      Ok (if s then - a else a)
  | S754_infinity _ => Raise OverflowError
  | S754_nan => Raise (ValueError "cannot convert float NaN to integer")
  end.

(** [a / b] on two ints (true division).  Correct rounding of the exact
    quotient coincides with dividing the converted operands as long as
    both are below [2^53], which image sizes are. *)
Definition truediv (a b : Z) : result t :=
  if b =? 0 then Raise ZeroDivisionError
  else x <- of_int a ;; y <- of_int b ;; Ok (div x y).

(** [x * n] and [n * x] with [n] an int: the int is converted first. *)
Definition mul_int (x : t) (n : Z) : result t :=
  y <- of_int n ;; Ok (mul x y).
Definition int_mul (n : Z) (x : t) : result t :=
  y <- of_int n ;; Ok (mul y x).

(** [n / x] with [n] an int and [x] a non-zero float literal. *)
Definition int_div (n : Z) (x : t) : result t :=
  y <- of_int n ;; Ok (div y x).

End F64.

(* ================================================================== *)
(** ** rgb_to_ansi *)

Definition f255_0 : F64.t := F64.dec 255 1.

(** [int((c / 255.0) * 5)] *)
Definition cube_level (c : Z) : result Z :=
  q <- F64.int_div c f255_0 ;;
  s <- F64.mul_int q 5 ;;
  F64.to_int s.

Definition rgb_to_ansi (r g b : Z) : result Z :=
  if (r =? g) && (g =? b) && (r <? 8) then Ok 16
  else if (r =? g) && (g =? b) && (248 <? r) then Ok 231
  else
    r6 <- cube_level r ;;
    g6 <- cube_level g ;;
    b6 <- cube_level b ;;
    Ok (16 + (r6 * 36) + (g6 * 6) + b6).

(* ================================================================== *)
(** ** The Pillow calls of the script *)

Record pixel : Type := RGBA { red : Z; green : Z; blue : Z; alpha : Z }.

Module Image.

(** A decoded image as the script sees it after [convert("RGBA")]: its
    size and one RGBA sample per position.  The conversion acts on each
    pixel by itself, so it commutes with the nearest-neighbour resize and
    the samples are taken as RGBA from the start. *)
Record t : Type := Build { width : Z; height : Z; px : Z -> Z -> pixel }.

(** What a path holds: nothing, a file that is no image, or an image. *)
Inductive file : Type :=
| Absent
| NotAnImage
| Picture (im : t).

(** [Image.open(path)] against the files of the machine. *)
Definition open (files : str -> file) (path : str) : result t :=
  match files path with
  | Picture im => Ok im
  | NotAnImage => Raise UnidentifiedImageError
  | Absent => Raise FileNotFoundError
  end.

Definition INT_MAX : Z := 2 ^ 31 - 1.

(** The position that the scaler has reached after [n] output samples: it
    adds the step [a] once per sample, in binary64. *)
Fixpoint stepped (a pos : F64.t) (n : nat) : F64.t :=
  match n with
  | O => pos
  | S k => stepped a (F64.add pos a) k
  end.

(** The integer part of a position, when it is not negative. *)
Definition coord (v : F64.t) : option Z :=
  match v with
  | S754_finite true _ _ => None
  | _ => match F64.to_int v with
         | Ok i => Some i
         | Raise _ => None
         end
  end.

(** The source column (or row) that [NEAREST] reads for output position
    [x] when [n_in] samples are scaled to [n_out]: the step is
    [a = n_in / n_out], the first position is [0.0 + a * 0.5], the centre of
    the first output cell, and the source index is the integer part of the
    position; [None] when that falls outside the source.  The step is the
    quotient of the two sizes as Pillow forms it, exact for sizes below
    [2^24]. *)
Definition nearest (n_in n_out x : Z) : option Z :=
  let a := F64.div (F64.of_Z n_in) (F64.of_Z n_out) in
  let start := F64.add (F64.of_Z 0) (F64.mul a (F64.dec 5 10)) in
  match coord (stepped a start (Z.to_nat x)) with
  | Some i => if (0 <=? i) && (i <? n_in) then Some i else None
  | None => None
  end.

(** [img.resize((xsize, ysize), Image.Resampling.NEAREST)].  Pillow returns
    a copy when the size is unchanged, takes the two sizes as C ints,
    rejects a size below 1 with
    [ValueError("height and width must be > 0")], and raises [MemoryError]
    when the new image cannot be allocated, which [allocates] decides.  A
    sample whose position falls outside the source stays zero. *)
Definition resize (allocates : Z -> Z -> bool) (im : t) (xsize ysize : Z)
  : result t :=
  if (xsize =? width im) && (ysize =? height im) then
    if allocates xsize ysize then Ok im else Raise MemoryError
  else if (xsize <? - INT_MAX - 1) || (INT_MAX <? xsize)
          || (ysize <? - INT_MAX - 1) || (INT_MAX <? ysize)
  then Raise OverflowError
  else if (xsize <? 1) || (ysize <? 1)
  then Raise (ValueError "height and width must be > 0")
  else if allocates xsize ysize then
    Ok {| width := xsize;
          height := ysize;
          px := fun x y =>
                  match nearest (width im) xsize x,
                        nearest (height im) ysize y with
                  | Some i, Some j => px im i j
                  | _, _ => RGBA 0 0 0 0
                  end |}
  else Raise MemoryError.

(** [pixels[x, y]] on the object returned by [img.load()]. *)
Definition getpixel (im : t) (x y : Z) : result pixel :=
  let x' := if x <? 0 then x + width im else x in
  let y' := if y <? 0 then y + height im else y in
  if (0 <=? x') && (x' <? width im) && (0 <=? y') && (y' <? height im)
  then Ok (px im x' y')
  else Raise IndexError.

End Image.

(* ================================================================== *)
(** ** The body of the pixel loop *)

(** [ascii_chars], the palette literal of the source file: its three code
    points U+00E2, U+2013, U+02C6. *)
Definition ascii_chars : str := [226; 8211; 710]%N.

Definition f0_299 : F64.t := F64.dec 299 1000.
Definition f0_587 : F64.t := F64.dec 587 1000.
Definition f0_114 : F64.t := F64.dec 114 1000.
Definition f0_3 : F64.t := F64.dec 3 10.
Definition f0_5 : F64.t := F64.dec 5 10.

Definition len (s : str) : Z := Z.of_nat (List.length s).

(** [luminance = 0.299 * r + 0.587 * g + 0.114 * b] *)
Definition luminance (r g b : Z) : result F64.t :=
  lr <- F64.mul_int f0_299 r ;;
  lg <- F64.mul_int f0_587 g ;;
  lb <- F64.mul_int f0_114 b ;;
  Ok (F64.add (F64.add lr lg) lb).

(** [char_idx = min(int((darkened / 255.0) * (len(ascii_chars) - 1)),
                    len(ascii_chars) - 1)] for a palette [chars]. *)
Definition char_idx (chars : str) (r g b : Z) : result Z :=
  lum <- luminance r g b ;;
  let darkened := F64.mul lum f0_3 in
  s <- F64.mul_int (F64.div darkened f255_0) (len chars - 1) ;;
  i <- F64.to_int s ;;
  Ok (Z.min i (len chars - 1)).

(** One output cell: the glyph and the colour code. *)
Definition cell : Type := (char * Z)%type.

Definition space : char := 32%N.

(** The [if a < 128: ... else: ...] of the loop body, for a palette
    [chars]. *)
Definition classify_with (chars : str) (p : pixel) : result cell :=
  if alpha p <? 128 then Ok (space, 16)
  else
    i <- char_idx chars (red p) (green p) (blue p) ;;
    c <- str_index chars i ;;
    ansi_code <- rgb_to_ansi (red p) (green p) (blue p) ;;
    Ok (c, ansi_code).

Definition classify : pixel -> result cell := classify_with ascii_chars.

Definition ESC : str := [27%N].
Definition newline : str := [10%N].

(** [f"\033[38;5;{ansi_code}m{char}\033[0m"] *)
Definition render_cell (c : cell) : str :=
  (ESC ++ lit "[38;5;" ++ str_of_int (snd c) ++ lit "m" ++ [fst c]
       ++ ESC ++ lit "[0m")%list.

(* ================================================================== *)
(** ** The environment of a run *)

(** Reading an ASCII decimal word: optional surrounding ASCII white space,
    an optional sign, decimal digits with single underscores between
    them. *)
Definition is_space (c : char) : bool :=
  ((c =? 32) || ((9 <=? c) && (c <=? 13)))%N.

Fixpoint lstrip (s : str) : str :=
  match s with
  | c :: s' => if is_space c then lstrip s' else s
  | [] => []
  end.

Definition strip (s : str) : str := rev (lstrip (rev (lstrip s))).

Fixpoint parse_digits (acc : Z) (after_digit : bool) (s : str) : option Z :=
  match s with
  | [] => if after_digit then Some acc else None
  | c :: s' =>
      if (c =? 95)%N then
        if after_digit then parse_digits acc false s' else None
      else if ((48 <=? c) && (c <=? 57))%N then
        parse_digits (10 * acc + (Z.of_N c - 48)) true s'
      else None
  end.

Definition ascii_int (s : str) : option Z :=
  let body := strip s in
  let '(negative, digits) :=
    match body with
    | 45%N :: rest => (true, rest)
    | 43%N :: rest => (false, rest)
    | _ => (false, body)
    end in
  match parse_digits 0 false digits with
  | Some n => Some (if negative then - n else n)
  | None => None
  end.

(** The machine and the interpreter of a run: what each path holds, which
    image sizes can be allocated, and what [int()] answers on the words that
    are not short ASCII decimals. *)
Record env : Type :=
  { files : str -> Image.file;
    allocates : Z -> Z -> bool;
    int_otherwise : str -> result Z }.

(** [int(s)]: a word of at most 640 characters that reads as an ASCII
    decimal gives its number on every interpreter (640 is the smallest limit
    that can be set on the digits of a conversion, 4300 the default); for
    the other words (digits or white space of other scripts, longer words,
    words that are no number) the answer is the interpreter's. *)
Definition py_int (E : env) (s : str) : result Z :=
  if (List.length s <=? 640)%nat then
    match ascii_int s with
    | Some n => Ok n
    | None => int_otherwise E s
    end
  else int_otherwise E s.

(* ================================================================== *)
(** ** orla_to_ascii *)

Section Pipeline.

Variable E : env.

(** [height = int(width * aspect_ratio * 0.5)] *)
Definition target_height (img : Image.t) (width : Z) : result Z :=
  aspect_ratio <- F64.truediv (Image.height img) (Image.width img) ;;
  w <- F64.int_mul width aspect_ratio ;;
  F64.to_int (F64.mul w f0_5).

(** The inner loop: one line of text for row [y]. *)
Definition render_line (img : Image.t) (width y : Z) : result str :=
  cells <- for_each (fun x =>
                       p <- Image.getpixel img x y ;;
                       c <- classify p ;;
                       Ok (render_cell c))
                    (range width) ;;
  Ok (List.concat cells).

Definition orla_to_ascii (image_path : str) (width : Z) : result str :=
  img <- Image.open (files E) image_path ;;
  height <- target_height img width ;;
  img <- Image.resize (allocates E) img width height ;;
  output <- for_each (render_line img width) (range height) ;;
  Ok (join newline output).

(** The same two loops, keeping the (glyph, colour) pairs instead of the
    text: the grid that the text renders. *)
Definition classify_line (img : Image.t) (width y : Z) : result (list cell) :=
  for_each (fun x => p <- Image.getpixel img x y ;; classify p) (range width).

Definition orla_grid (image_path : str) (width : Z)
  : result (list (list cell)) :=
  img <- Image.open (files E) image_path ;;
  height <- target_height img width ;;
  img <- Image.resize (allocates E) img width height ;;
  for_each (classify_line img width) (range height).

Definition render_grid (grid : list (list cell)) : str :=
  join newline (map (fun row => List.concat (map render_cell row)) grid).

End Pipeline.

(* ================================================================== *)
(** ** The command line *)

(** What a run leaves behind: the strings printed on standard output, what
    went to standard error (a printed message, or the traceback of an
    exception nobody caught) and the exit status. *)
Inductive diagnostic : Type :=
| Message (s : str)
| Traceback (e : exn).

Record outcome : Type :=
  { stdout : list str; stderr : list diagnostic; exit_status : Z }.

Definition usage : str :=
  lit "Usage: python3 orla_to_ascii.py image_path [width]".

(** [sys.argv[i]] *)
Definition argv_at (argv : list str) (i : nat) : result str :=
  match nth_error argv i with
  | Some a => Ok a
  | None => Raise IndexError
  end.

Section Main.

Variable E : env.

(** The [if __name__ == "__main__":] block, run on [sys.argv]. *)
Definition main (argv : list str) : outcome :=
  if Z.of_nat (List.length argv) <? 1 then
    {| stdout := []; stderr := [Message usage]; exit_status := 1 |}
  else
    match (image_path <- argv_at argv 1 ;;
           width <- (if 2 <? Z.of_nat (List.length argv)
                     then a <- argv_at argv 2 ;; py_int E a
                     else Ok 40) ;;
           orla_to_ascii E image_path width) with
    | Ok ascii_art =>
        {| stdout := [ascii_art]; stderr := []; exit_status := 0 |}
    | Raise e =>
        {| stdout := []; stderr := [Traceback e]; exit_status := 1 |}
    end.

End Main.

(* ================================================================== *)
(** ** The rule of the specification, in exact arithmetic *)

(** [floor(c / 255 * 5)] over the rationals. *)
Definition level_spec (c : Z) : Z := (c * 5) / 255.

(** The colour-cube rule as the specification words it. *)
Definition cube_spec (r g b : Z) : Z :=
  16 + level_spec r * 36 + level_spec g * 6 + level_spec b.

Definition color_spec (r g b : Z) : Z :=
  if (r =? g) && (g =? b) && (r <? 8) then 16
  else if (r =? g) && (g =? b) && (248 <? r) then 231
  else cube_spec r g b.

(** An 8-bit channel value. *)
Definition byte (c : Z) : Prop := 0 <= c <= 255.

Definition wf_pixel (p : pixel) : Prop :=
  byte (red p) /\ byte (green p) /\ byte (blue p) /\ byte (alpha p).

(* ================================================================== *)
(** ** Hardware floats, used to run the glyph formula on every colour *)

(** The same binary64 arithmetic on the primitive floats of the kernel; the
    Standard Library relates each primitive operation to the [SpecFloat]
    one through [Prim2SF]. *)
Definition pf (n : Z) : float := of_uint63 (Uint63.of_Z n).

Definition p0_299 : float := (pf 299 / pf 1000)%float.
Definition p0_587 : float := (pf 587 / pf 1000)%float.
Definition p0_114 : float := (pf 114 / pf 1000)%float.
Definition p0_3 : float := (pf 3 / pf 10)%float.
Definition p255_0 : float := (pf 255 / pf 1)%float.

(** [(darkened / 255.0) * n] on primitive floats. *)
Definition scaled_prim (n : Z) (r g b : float) : float :=
  ((((p0_299 * r + p0_587 * g) + p0_114 * b) * p0_3) / p255_0 * pf n)%float.

Definition below_one (n : Z) (r g b : float) : bool :=
  let q := scaled_prim n r g b in ((q <? 1) && (0 <=? q))%float.

Definition channels : list float := map pf (range 256).

Definition all3 (P : float -> float -> float -> bool) : bool :=
  forallb (fun x => forallb (fun y => forallb (fun z => P x y z) channels)
                            channels) channels.

Definition one_sf : F64.t := S754_finite false 4503599627370496 (-52).
Definition zero_sf : F64.t := S754_zero false.

(** The sign a float has when it is finite and not zero. *)
Definition sign_is (s : bool) (x : F64.t) : Prop :=
  match x with
  | S754_finite s' _ _ => s' = s
  | _ => True
  end.

(* ================================================================== *)
(** ** Concrete inputs *)

(** A machine whose only file is the image [img] at [path], with room for
    images of up to [2^24] samples, and an interpreter that takes ASCII
    decimals only. *)
Definition one_file (path : str) (img : Image.t) : env :=
  {| files := fun p => if list_eq_dec N.eq_dec p path
                       then Image.Picture img else Image.Absent;
     allocates := fun w h => w * h <=? 2 ^ 24;
     int_otherwise :=
       fun _ => Raise (ValueError "invalid literal for int() with base 10") |}.

Definition logo_png : str := lit "logo.png".
Definition script : str := lit "orla_to_ascii.py".

(** The 2x2 opaque image [(0,0,0) (255,255,255) / (0,154,0) (255,0,0)]. *)
Definition img2x2 : Image.t :=
  Image.Build 2 2
    (fun x y =>
       match x, y with
       | 0, 0 => RGBA 0 0 0 255
       | 1, 0 => RGBA 255 255 255 255
       | 0, 1 => RGBA 0 154 0 255
       | _, _ => RGBA 255 0 0 255
       end).

(** A fully transparent 1x1 image. *)
Definition img1x1 : Image.t := Image.Build 1 1 (fun _ _ => RGBA 0 0 0 0).

(** Every sample of the image is four 8-bit channels, and the size is a
    positive C int, as Pillow keeps it. *)
Definition wf_image (img : Image.t) : Prop :=
  0 < Image.width img <= Image.INT_MAX /\
  0 < Image.height img <= Image.INT_MAX /\
  forall x y, wf_pixel (Image.px img x y).

(** The height formula as one binary64 expression:
    [int(width * (image.height / image.width) * 0.5)]. *)
Definition height_formula (img : Image.t) (w : Z) : result Z :=
  F64.to_int
    (F64.mul (F64.mul (F64.of_Z w)
                      (F64.div (F64.of_Z (Image.height img))
                               (F64.of_Z (Image.width img))))
             (F64.dec 5 10)).

(** Linear arithmetic with divisions by constants. *)
Ltac div_lia := Z.to_euclidean_division_equations; lia.

(* ================================================================== *)
(** * Properties *)

(** ** Enumerating the 256 channel values *)

Lemma range_In (n c : Z) : 0 <= c < n -> In c (range n).
Proof.
  intros H. unfold range. apply in_map_iff. exists (Z.to_nat c). split.
  - lia.
  - apply in_seq. lia.
Qed.

Lemma byte_cases (P : Z -> bool) :
  forallb P (range 256) = true -> forall c, byte c -> P c = true.
Proof.
  intros H c Hc. rewrite forallb_forall in H. apply H, range_In.
  unfold byte in Hc. lia.
Qed.

Lemma cube_level_exact (c : Z) : byte c -> cube_level c = Ok (level_spec c).
Proof.
  intros Hc.
  pose proof (byte_cases (fun c => match cube_level c with
                                    | Ok v => v =? level_spec c
                                    | Raise _ => false
                                    end)
                         ltac:(vm_compute; reflexivity) c Hc) as H.
  cbv beta in H. destruct (cube_level c) as [v | e]; [|discriminate H].
  apply Z.eqb_eq in H. now subst v.
Qed.

Lemma level_spec_range (c : Z) : byte c -> 0 <= level_spec c <= 5.
Proof.
  intros Hc.
  pose proof (byte_cases (fun c => (0 <=? level_spec c) && (level_spec c <=? 5))
                         ltac:(vm_compute; reflexivity) c Hc) as H.
  cbv beta in H. apply andb_prop in H. destruct H as [H1 H2].
  apply Z.leb_le in H1, H2. lia.
Qed.

Lemma rgb_to_ansi_spec (r g b : Z) :
  byte r -> byte g -> byte b -> rgb_to_ansi r g b = Ok (color_spec r g b).
Proof.
  intros Hr Hg Hb. unfold rgb_to_ansi, color_spec.
  destruct ((r =? g) && (g =? b) && (r <? 8)); [reflexivity|].
  destruct ((r =? g) && (g =? b) && (248 <? r)); [reflexivity|].
  rewrite !cube_level_exact by assumption. reflexivity.
Qed.

Lemma color_spec_range (r g b : Z) :
  byte r -> byte g -> byte b -> 16 <= color_spec r g b <= 231.
Proof.
  intros Hr Hg Hb. unfold color_spec, cube_spec.
  pose proof (level_spec_range r Hr). pose proof (level_spec_range g Hg).
  pose proof (level_spec_range b Hb).
  destruct ((r =? g) && (g =? b) && (r <? 8)); [lia|].
  destruct ((r =? g) && (g =? b) && (248 <? r)); lia.
Qed.

Lemma of_int_byte (c : Z) : byte c -> F64.of_int c = Ok (F64.of_Z c).
Proof.
  intros Hc.
  pose proof (byte_cases (fun c => match F64.of_Z c with
                                    | S754_infinity _ => false
                                    | _ => true
                                    end)
                         ltac:(vm_compute; reflexivity) c Hc) as H.
  cbv beta in H. unfold F64.of_int.
  destruct (F64.of_Z c); try reflexivity. discriminate H.
Qed.

(** ** From the primitive floats to the model *)

Lemma pf_spec (n : Z) : 0 <= n < 2 ^ 63 -> Prim2SF (pf n) = F64.of_Z n.
Proof.
  intros H. unfold pf, F64.of_Z.
  rewrite FloatAxioms.of_uint63_spec, Uint63.of_Z_spec.
  rewrite Z.mod_small; [reflexivity | exact H].
Qed.

Lemma pf_byte (c : Z) : byte c -> Prim2SF (pf c) = F64.of_Z c.
Proof. intros Hc. apply pf_spec. unfold byte in Hc. lia. Qed.

Lemma pdec_spec (num den : Z) :
  0 <= num < 2 ^ 63 -> 0 <= den < 2 ^ 63 ->
  Prim2SF (pf num / pf den)%float = F64.dec num den.
Proof.
  intros Hn Hd. rewrite FloatAxioms.div_spec, !pf_spec by assumption.
  reflexivity.
Qed.

Lemma scaled_prim_spec (n r g b : Z) :
  0 <= n < 2 ^ 63 -> byte r -> byte g -> byte b ->
  Prim2SF (scaled_prim n (pf r) (pf g) (pf b)) =
  F64.mul
    (F64.div
       (F64.mul
          (F64.add (F64.add (F64.mul f0_299 (F64.of_Z r))
                            (F64.mul f0_587 (F64.of_Z g)))
                   (F64.mul f0_114 (F64.of_Z b)))
          f0_3)
       f255_0)
    (F64.of_Z n).
Proof.
  intros Hn Hr Hg Hb. unfold scaled_prim.
  repeat (rewrite FloatAxioms.mul_spec || rewrite FloatAxioms.div_spec
          || rewrite FloatAxioms.add_spec).
  rewrite !pf_byte by assumption. rewrite (pf_spec n) by assumption.
  unfold p0_299, p0_587, p0_114, p0_3, p255_0.
  rewrite !pdec_spec by (split; [discriminate | reflexivity]).
  reflexivity.
Qed.

Lemma all3_sound (P : float -> float -> float -> bool) :
  all3 P = true ->
  forall r g b, byte r -> byte g -> byte b -> P (pf r) (pf g) (pf b) = true.
Proof.
  intros H r g b Hr Hg Hb. unfold all3 in H.
  assert (Hin : forall c, byte c -> In (pf c) channels).
  { intros c Hc. unfold channels. apply in_map, range_In.
    unfold byte in Hc. lia. }
  rewrite forallb_forall in H. specialize (H _ (Hin r Hr)).
  rewrite forallb_forall in H. specialize (H _ (Hin g Hg)).
  rewrite forallb_forall in H. exact (H _ (Hin b Hb)).
Qed.

(** The scaled luminance is below 1 for the palette of the file (scale 2)
    and for a palette of one glyph (scale 0), on all [256^3] colours. *)
Lemma all_below_one_2 : all3 (below_one 2) = true.
Proof. vm_compute. reflexivity. Qed.

Lemma all_below_one_0 : all3 (below_one 0) = true.
Proof. vm_compute. reflexivity. Qed.

Lemma digits2_pos_bound (m : positive) : Zpos m < 2 ^ Zpos (digits2_pos m).
Proof.
  induction m as [m IH | m IH |]; simpl digits2_pos.
  - rewrite Pos2Z.inj_succ, Z.pow_succ_r by lia. lia.
  - rewrite Pos2Z.inj_succ, Z.pow_succ_r by lia. lia.
  - simpl. lia.
Qed.

Lemma valid_digits (s : bool) (m : positive) (e : Z) :
  valid_binary (S754_finite s m e) = true -> Zpos (digits2_pos m) <= 53.
Proof.
  unfold valid_binary, bounded, canonical_mantissa, fexp.
  intros Hv. apply andb_prop in Hv. destruct Hv as [Hc _].
  apply Z.eqb_eq in Hc. unfold FloatOps.prec in Hc. lia.
Qed.

Lemma valid_mantissa (s : bool) (m : positive) (e : Z) :
  valid_binary (S754_finite s m e) = true -> Zpos m < 2 ^ 53.
Proof.
  intros Hv. apply valid_digits in Hv.
  eapply Z.lt_le_trans; [apply digits2_pos_bound|].
  apply Z.pow_le_mono_r; lia.
Qed.

Lemma ltb_one_inv (m : positive) (e : Z) :
  SFltb (S754_finite false m e) one_sf = true ->
  e < -52 \/ (e = -52 /\ (m < 4503599627370496)%positive).
Proof.
  unfold SFltb, one_sf, SFcompare. intros Hlt.
  destruct (e ?= -52) eqn:He.
  - right. split; [apply Z.compare_eq_iff; exact He|].
    destruct (Pos.compare_cont Eq m 4503599627370496) eqn:Hq;
      try discriminate Hlt. exact Hq.
  - left. exact He.
  - discriminate Hlt.
Qed.

Lemma shiftr_small (m p : positive) :
  Zpos m < 2 ^ Zpos p -> Z.shiftr (Zpos m) (Zpos p) = 0.
Proof.
  intros H. rewrite Z.shiftr_div_pow2 by apply Pos2Z.is_nonneg.
  apply Z.div_small. split; [apply Pos2Z.is_nonneg | exact H].
Qed.

(** A float in [[0, 1)] truncates to 0. *)
Lemma to_int_below_one (s : F64.t) :
  valid_binary s = true ->
  SFltb s one_sf = true -> SFleb zero_sf s = true ->
  F64.to_int s = Ok 0.
Proof.
  intros Hv Hlt Hle.
  destruct s as [sg | sg | | sg m e].
  - reflexivity.
  - destruct sg; [discriminate Hle | discriminate Hlt].
  - discriminate Hlt.
  - destruct sg; [discriminate Hle|].
    apply valid_mantissa in Hv. apply ltb_one_inv in Hlt.
    destruct Hlt as [He | [He Hq]].
    + destruct e as [| p | p]; try (exfalso; lia).
      unfold F64.to_int. rewrite shiftr_small; [reflexivity|].
      eapply Z.lt_le_trans; [exact Hv|]. apply Z.pow_le_mono_r; lia.
    + subst e. unfold F64.to_int. rewrite shiftr_small; [reflexivity|].
      apply Pos2Z.pos_lt_pos in Hq. exact Hq.
Qed.

Lemma below_one_to_int (n r g b : Z) :
  0 <= n < 2 ^ 63 -> byte r -> byte g -> byte b ->
  below_one n (pf r) (pf g) (pf b) = true ->
  F64.to_int (Prim2SF (scaled_prim n (pf r) (pf g) (pf b))) = Ok 0.
Proof.
  intros Hn Hr Hg Hb H. unfold below_one in H. cbv zeta in H.
  apply andb_prop in H. destruct H as [H1 H0].
  rewrite FloatAxioms.ltb_spec in H1. rewrite FloatAxioms.leb_spec in H0.
  apply to_int_below_one.
  - apply Prim2SF_valid.
  - exact H1.
  - exact H0.
Qed.

(** ** The glyph index *)

Lemma luminance_byte (r g b : Z) :
  byte r -> byte g -> byte b ->
  luminance r g b =
  Ok (F64.add (F64.add (F64.mul f0_299 (F64.of_Z r))
                       (F64.mul f0_587 (F64.of_Z g)))
              (F64.mul f0_114 (F64.of_Z b))).
Proof.
  intros Hr Hg Hb. unfold luminance, F64.mul_int.
  rewrite !of_int_byte by assumption. reflexivity.
Qed.

(** For a palette of [n + 1] glyphs with [n] being 0 or 2, every colour
    gets glyph index 0. *)
Lemma char_idx_zero (chars : str) (r g b : Z) :
  len chars - 1 = 0 \/ len chars - 1 = 2 ->
  byte r -> byte g -> byte b ->
  char_idx chars r g b = Ok 0.
Proof.
  intros Hn Hr Hg Hb. unfold char_idx.
  rewrite luminance_byte by assumption. cbn [bind].
  unfold F64.mul_int.
  assert (Hof : F64.of_int (len chars - 1) = Ok (F64.of_Z (len chars - 1))).
  { destruct Hn as [-> | ->]; reflexivity. }
  rewrite Hof. cbn [bind].
  assert (Hs : 0 <= len chars - 1 < 2 ^ 63) by (destruct Hn as [-> | ->]; lia).
  rewrite <- (scaled_prim_spec (len chars - 1) r g b Hs Hr Hg Hb).
  rewrite below_one_to_int; try assumption.
  - cbn [bind]. destruct Hn as [-> | ->]; reflexivity.
  - destruct Hn as [-> | ->];
      [apply (all3_sound _ all_below_one_0) | apply (all3_sound _ all_below_one_2)];
      assumption.
Qed.

Lemma classify_opaque (p : pixel) :
  wf_pixel p -> 128 <= alpha p ->
  classify p = Ok (226%N, color_spec (red p) (green p) (blue p)).
Proof.
  intros (Hr & Hg & Hb & _) Ha. unfold classify, classify_with.
  destruct (alpha p <? 128) eqn:E; [apply Z.ltb_lt in E; lia|].
  rewrite char_idx_zero; try assumption; [|right; reflexivity].
  cbn [bind]. rewrite rgb_to_ansi_spec by assumption. reflexivity.
Qed.

Lemma classify_transparent (chars : str) (p : pixel) :
  alpha p < 128 -> classify_with chars p = Ok (space, 16).
Proof.
  intros Ha. unfold classify_with.
  destruct (alpha p <? 128) eqn:E; [reflexivity|].
  apply Z.ltb_ge in E. lia.
Qed.

(** Every well-formed pixel is classified, with a colour of the cube. *)
Lemma classify_total (p : pixel) :
  wf_pixel p ->
  exists c, classify p = Ok c /\ 16 <= snd c <= 231.
Proof.
  intros Hp. destruct (Z.lt_ge_cases (alpha p) 128) as [Ha | Ha].
  - exists (space, 16). split; [apply classify_transparent; exact Ha|].
    simpl. lia.
  - eexists. split; [apply classify_opaque; assumption|].
    destruct Hp as (Hr & Hg & Hb & _). simpl.
    apply color_spec_range; assumption.
Qed.

(* ================================================================== *)
(** * The claims about the classifier *)

(** C1. For every opaque pixel (alpha >= 128) with 8-bit channels the colour
    index follows the 6x6x6 rule: 16 for a grey below 8, 231 for a grey above
    248, and otherwise [16 + r6*36 + g6*6 + b6] with
    [r6 = floor(r/255*5)] and likewise [g6], [b6], the floors being the
    exact ones. *)
Theorem opaque_color_index_rule (p : pixel) :
  wf_pixel p -> 128 <= alpha p ->
  exists glyph index,
    classify p = Ok (glyph, index) /\
    rgb_to_ansi (red p) (green p) (blue p) = Ok index /\
    (red p = green p /\ green p = blue p /\ red p < 8 -> index = 16) /\
    (red p = green p /\ green p = blue p /\ 248 < red p -> index = 231) /\
    (~ (red p = green p /\ green p = blue p /\ red p < 8) ->
     ~ (red p = green p /\ green p = blue p /\ 248 < red p) ->
     index = 16 + (red p * 5 / 255) * 36 + (green p * 5 / 255) * 6
             + blue p * 5 / 255).
Proof.
  intros Hp Ha. pose proof Hp as (Hr & Hg & Hb & _).
  exists 226%N, (color_spec (red p) (green p) (blue p)).
  split; [apply classify_opaque; assumption|].
  split; [apply rgb_to_ansi_spec; assumption|].
  unfold color_spec, cube_spec, level_spec.
  destruct ((red p =? green p) && (green p =? blue p) && (red p <? 8)) eqn:E1;
    [| destruct ((red p =? green p) && (green p =? blue p) && (248 <? red p))
         eqn:E2].
  - repeat split; intros; try reflexivity; exfalso; lia.
  - repeat split; intros; try reflexivity; exfalso; lia.
  - repeat split; intros; try reflexivity; exfalso; lia.
Qed.

Lemma opaque_color_index_rule_witness :
  exists glyph index,
    classify (RGBA 10 20 30 255) = Ok (glyph, index) /\
    rgb_to_ansi 10 20 30 = Ok index /\
    (10 = 20 /\ 20 = 30 /\ 10 < 8 -> index = 16) /\
    (10 = 20 /\ 20 = 30 /\ 248 < 10 -> index = 231) /\
    (~ (10 = 20 /\ 20 = 30 /\ 10 < 8) ->
     ~ (10 = 20 /\ 20 = 30 /\ 248 < 10) ->
     index = 16 + (10 * 5 / 255) * 36 + (20 * 5 / 255) * 6 + 30 * 5 / 255).
Proof.
  apply (opaque_color_index_rule (RGBA 10 20 30 255)).
  - unfold wf_pixel, byte; simpl; lia.
  - simpl; lia.
Defined.

(** C2. A pixel with alpha below 128 is classified as a space with colour
    index 16, whatever its red, green and blue. *)
Theorem transparent_is_space_16 (p : pixel) :
  alpha p < 128 -> classify p = Ok (space, 16).
Proof. apply classify_transparent. Qed.

Lemma transparent_is_space_16_witness :
  classify (RGBA 200 100 50 0) = Ok (space, 16).
Proof.
  apply (transparent_is_space_16 (RGBA 200 100 50 0)). simpl; lia.
Defined.

(** C5, as stated, fails on a near-white grey: (250,250,250) is neither
    pure black nor pure white, the cube formula gives 188, and the code
    answers 231. *)
Lemma near_white_grey_counterexample :
  let p := RGBA 250 250 250 255 in
  wf_pixel p /\ 128 <= alpha p /\
  ~ (red p = 0 /\ green p = 0 /\ blue p = 0) /\
  ~ (red p = 255 /\ green p = 255 /\ blue p = 255) /\
  classify p = Ok (226%N, 231) /\
  16 + (red p * 5 / 255) * 36 + (green p * 5 / 255) * 6 + blue p * 5 / 255
  = 188.
Proof.
  cbv zeta. split; [unfold wf_pixel, byte; simpl; lia|].
  split; [simpl; lia|]. split; [simpl; lia|]. split; [simpl; lia|].
  split; [|reflexivity].
  rewrite classify_opaque; [reflexivity | unfold wf_pixel, byte; simpl; lia
                                        | simpl; lia].
Qed.

(** C5, amended. For every opaque pixel that is not a grey above 248 the
    colour index is [16 + r6*36 + g6*6 + b6] and lies in [16, 231]; every
    grey above 248, pure white included, gets 231; pure black gets 16. *)
Theorem opaque_color_index_cases (p : pixel) :
  wf_pixel p -> 128 <= alpha p ->
  exists glyph index,
    classify p = Ok (glyph, index) /\
    16 <= index <= 231 /\
    (~ (red p = green p /\ green p = blue p /\ 248 < red p) ->
     index = 16 + (red p * 5 / 255) * 36 + (green p * 5 / 255) * 6
             + blue p * 5 / 255) /\
    (red p = green p /\ green p = blue p /\ 248 < red p -> index = 231) /\
    (red p = 0 /\ green p = 0 /\ blue p = 0 -> index = 16).
Proof.
  intros Hp Ha. pose proof Hp as (Hr & Hg & Hb & _).
  exists 226%N, (color_spec (red p) (green p) (blue p)).
  split; [apply classify_opaque; assumption|].
  split; [apply color_spec_range; assumption|].
  unfold color_spec, cube_spec, level_spec.
  destruct ((red p =? green p) && (green p =? blue p) && (red p <? 8)) eqn:E1;
    [| destruct ((red p =? green p) && (green p =? blue p) && (248 <? red p))
         eqn:E2].
  - assert (Hs : forall c, 0 <= c < 8 -> c * 5 / 255 = 0)
      by (intros c Hc; apply Z.div_small; lia).
    unfold byte in Hr.
    assert (Hrg : green p = red p) by lia.
    assert (Hrb : blue p = red p) by lia.
    rewrite Hrg, Hrb, Hs by lia.
    repeat split; intros; try reflexivity; exfalso; lia.
  - repeat split; intros; try reflexivity; exfalso; lia.
  - repeat split; intros; try reflexivity; exfalso; lia.
Qed.

Lemma opaque_color_index_cases_witness :
  exists glyph index,
    classify (RGBA 0 154 0 255) = Ok (glyph, index) /\
    16 <= index <= 231 /\
    (~ (0 = 154 /\ 154 = 0 /\ 248 < 0) ->
     index = 16 + (0 * 5 / 255) * 36 + (154 * 5 / 255) * 6 + 0 * 5 / 255) /\
    (0 = 154 /\ 154 = 0 /\ 248 < 0 -> index = 231) /\
    (0 = 0 /\ 154 = 0 /\ 0 = 0 -> index = 16).
Proof.
  apply (opaque_color_index_cases (RGBA 0 154 0 255)).
  - unfold wf_pixel, byte; simpl; lia.
  - simpl; lia.
Defined.

(** C10. Whichever branch classifies a pixel, its colour index lies in
    [16, 231]; in particular [rgb_to_ansi] returns a value in [16, 231] on
    all 8-bit channels, so no escape sequence names one of the colours 0-15
    or 232-255. *)
Theorem color_index_in_cube :
  (forall p, wf_pixel p ->
             exists glyph index,
               classify p = Ok (glyph, index) /\ 16 <= index <= 231) /\
  (forall r g b, byte r -> byte g -> byte b ->
                 exists index,
                   rgb_to_ansi r g b = Ok index /\ 16 <= index <= 231).
Proof.
  split.
  - intros p Hp. destruct (classify_total p Hp) as ([glyph index] & Hc & Hi).
    exists glyph, index. split; assumption.
  - intros r g b Hr Hg Hb. exists (color_spec r g b).
    split; [apply rgb_to_ansi_spec | apply color_spec_range]; assumption.
Qed.

Lemma color_index_in_cube_witness :
  (exists glyph index,
      classify (RGBA 255 255 255 128) = Ok (glyph, index) /\
      16 <= index <= 231) /\
  (exists index, rgb_to_ansi 7 7 7 = Ok index /\ 16 <= index <= 231).
Proof.
  split.
  - apply (proj1 color_index_in_cube (RGBA 255 255 255 128)).
    unfold wf_pixel, byte; simpl; lia.
  - apply (proj2 color_index_in_cube 7 7 7); unfold byte; lia.
Defined.

(** The palette literal as the file stores it: the three code points
    U+00E2, U+2013, U+02C6, which are the bytes of the single block glyph
    U+2588 read in a one-byte encoding; the palette has one glyph only when
    the literal is repaired. *)
Lemma garbled_palette :
  ascii_chars = [226; 8211; 710]%N /\ len ascii_chars = 3 /\
  len [9608%N] = 1 /\
  classify (RGBA 255 255 255 255) = Ok (226%N, 231) /\
  classify_with [9608%N] (RGBA 255 255 255 255) = Ok (9608%N, 231).
Proof. repeat split; vm_compute; reflexivity. Qed.

(** C6. For every opaque pixel the glyph index is
    [min(int((darkened / 255.0) * (paletteSize - 1)), paletteSize - 1)] with
    [darkened = L * 0.3] and [L = 0.299*r + 0.587*g + 0.114*b], in binary64
    and in that order; with a palette of a single glyph the index is always
    0 and the glyph is that glyph.  The palette of the file holds three code
    points instead, and there too the index is always 0, so what is printed
    is its first character, U+00E2. *)
Theorem glyph_index_always_zero (p : pixel) :
  wf_pixel p -> 128 <= alpha p ->
  let lum :=
    F64.add (F64.add (F64.mul (F64.dec 299 1000) (F64.of_Z (red p)))
                     (F64.mul (F64.dec 587 1000) (F64.of_Z (green p))))
            (F64.mul (F64.dec 114 1000) (F64.of_Z (blue p))) in
  let darkened := F64.mul lum (F64.dec 3 10) in
  luminance (red p) (green p) (blue p) = Ok lum /\
  (forall chars,
      char_idx chars (red p) (green p) (blue p) =
      (n <- F64.of_int (len chars - 1) ;;
       i <- F64.to_int (F64.mul (F64.div darkened (F64.dec 255 1)) n) ;;
       Ok (Z.min i (len chars - 1)))) /\
  (forall glyph,
      char_idx [glyph] (red p) (green p) (blue p) = Ok 0 /\
      exists index, classify_with [glyph] p = Ok (glyph, index)) /\
  len ascii_chars = 3 /\
  char_idx ascii_chars (red p) (green p) (blue p) = Ok 0 /\
  str_index ascii_chars 0 = Ok 226%N /\
  (exists index, classify p = Ok (226%N, index)).
Proof.
  intros Hp Ha. pose proof Hp as (Hr & Hg & Hb & _). cbv zeta.
  split; [apply luminance_byte; assumption|].
  split.
  { intros chars. unfold char_idx. rewrite luminance_byte by assumption.
    cbn [bind]. unfold F64.mul_int.
    destruct (F64.of_int (len chars - 1)); reflexivity. }
  split.
  { intros glyph.
    assert (H0 : char_idx [glyph] (red p) (green p) (blue p) = Ok 0)
      by (apply char_idx_zero; try assumption; left; reflexivity).
    split; [exact H0|].
    unfold classify_with.
    destruct (alpha p <? 128) eqn:E; [apply Z.ltb_lt in E; lia|].
    rewrite H0. cbn [bind]. rewrite rgb_to_ansi_spec by assumption.
    eexists. reflexivity. }
  split; [reflexivity|].
  split; [apply char_idx_zero; try assumption; right; reflexivity|].
  split; [reflexivity|].
  eexists. apply classify_opaque; assumption.
Qed.

Lemma glyph_index_always_zero_witness :
  let p := RGBA 255 255 255 255 in
  let lum :=
    F64.add (F64.add (F64.mul (F64.dec 299 1000) (F64.of_Z (red p)))
                     (F64.mul (F64.dec 587 1000) (F64.of_Z (green p))))
            (F64.mul (F64.dec 114 1000) (F64.of_Z (blue p))) in
  let darkened := F64.mul lum (F64.dec 3 10) in
  luminance (red p) (green p) (blue p) = Ok lum /\
  (forall chars,
      char_idx chars (red p) (green p) (blue p) =
      (n <- F64.of_int (len chars - 1) ;;
       i <- F64.to_int (F64.mul (F64.div darkened (F64.dec 255 1)) n) ;;
       Ok (Z.min i (len chars - 1)))) /\
  (forall glyph,
      char_idx [glyph] (red p) (green p) (blue p) = Ok 0 /\
      exists index, classify_with [glyph] p = Ok (glyph, index)) /\
  len ascii_chars = 3 /\
  char_idx ascii_chars (red p) (green p) (blue p) = Ok 0 /\
  str_index ascii_chars 0 = Ok 226%N /\
  (exists index, classify p = Ok (226%N, index)).
Proof.
  apply (glyph_index_always_zero (RGBA 255 255 255 255)).
  - unfold wf_pixel, byte; simpl; lia.
  - simpl; lia.
Defined.

(* ================================================================== *)
(** * The loops and the resize *)

(** ** Signs of the float operations *)

Lemma round_aux_sign (s : bool) (m e : Z) (l : location) :
  sign_is s (binary_round_aux prec emax s m e l).
Proof.
  unfold binary_round_aux.
  destruct (shr_fexp prec emax m e l) as [mrs e'].
  destruct (shr_fexp prec emax _ e' loc_Exact) as [mrs' e''].
  destruct (shr_m mrs'); [exact I | | exact I].
  match goal with |- context [if ?c then _ else _] => destruct c end.
  - reflexivity.
  - exact I.
Qed.

Lemma round_sign (s : bool) (m : positive) (e : Z) :
  sign_is s (binary_round prec emax s m e).
Proof.
  unfold binary_round. destruct (shl_align m e _) as [mz ez].
  apply round_aux_sign.
Qed.

Lemma of_Z_sign_pos (z : Z) : 0 < z -> sign_is false (F64.of_Z z).
Proof.
  intros Hz. destruct z as [| m | m]; try lia. apply round_sign.
Qed.

Lemma of_Z_sign_nonpos (z : Z) : z <= 0 -> sign_is true (F64.of_Z z).
Proof.
  intros Hz. destruct z as [| m | m]; try lia.
  - exact I.
  - apply round_sign.
Qed.

Lemma mul_sign (a b : bool) (x y : F64.t) :
  sign_is a x -> sign_is b y -> sign_is (xorb a b) (F64.mul x y).
Proof.
  intros Hx Hy.
  destruct x as [sx | sx | | sx mx ex], y as [sy | sy | | sy my ey];
    simpl; trivial.
  simpl in Hx, Hy. subst sx sy. apply round_aux_sign.
Qed.

Lemma div_sign (a b : bool) (x y : F64.t) :
  sign_is a x -> sign_is b y -> sign_is (xorb a b) (F64.div x y).
Proof.
  intros Hx Hy.
  destruct x as [sx | sx | | sx mx ex], y as [sy | sy | | sy my ey];
    simpl; trivial.
  simpl in Hx, Hy. subst sx sy. unfold F64.div, SFdiv.
  destruct (SFdiv_core_binary prec emax (Z.pos mx) ex (Z.pos my) ey)
    as [[mz ez] lz].
  apply round_aux_sign.
Qed.

Lemma of_int_sign (s : bool) (z : Z) (x : F64.t) :
  sign_is s (F64.of_Z z) -> F64.of_int z = Ok x -> sign_is s x.
Proof.
  unfold F64.of_int. intros Hs H.
  destruct (F64.of_Z z); inversion H; subst; exact Hs.
Qed.

Lemma to_int_sign_false (x : F64.t) (h : Z) :
  sign_is false x -> F64.to_int x = Ok h -> 0 <= h.
Proof.
  intros Hs H. destruct x as [sx | sx | | sx m e]; simpl in H;
    try discriminate H.
  - inversion H. lia.
  - simpl in Hs. subst sx. inversion H. destruct e as [| q | q].
    + apply Z.shiftl_nonneg. lia.
    + apply Z.shiftl_nonneg. lia.
    + apply Z.shiftr_nonneg. lia.
Qed.

Lemma to_int_sign_true (x : F64.t) (h : Z) :
  sign_is true x -> F64.to_int x = Ok h -> h <= 0.
Proof.
  intros Hs H. destruct x as [sx | sx | | sx m e]; simpl in H;
    try discriminate H.
  - inversion H. lia.
  - simpl in Hs. subst sx. inversion H. apply Z.opp_nonpos_nonneg.
    destruct e as [| q | q].
    + apply Z.shiftl_nonneg. lia.
    + apply Z.shiftl_nonneg. lia.
    + apply Z.shiftr_nonneg. lia.
Qed.

Lemma f0_5_sign : sign_is false f0_5.
Proof. vm_compute. reflexivity. Qed.

(** The height has the sign of the requested width. *)
Lemma target_height_sign (s : bool) (img : Image.t) (w h : Z) :
  0 < Image.width img -> 0 < Image.height img ->
  sign_is s (F64.of_Z w) ->
  target_height img w = Ok h ->
  if s then h <= 0 else 0 <= h.
Proof.
  intros Hw Hh Hs. unfold target_height, F64.truediv, F64.int_mul.
  destruct (Image.width img =? 0) eqn:E; [apply Z.eqb_eq in E; lia|].
  destruct (F64.of_int (Image.height img)) as [fh | e1] eqn:E1;
    [|discriminate].
  destruct (F64.of_int (Image.width img)) as [fw | e2] eqn:E2;
    [|discriminate].
  cbn [bind].
  destruct (F64.of_int w) as [fx | e3] eqn:E3; [|discriminate].
  cbn [bind]. intros H.
  assert (Hq : sign_is false (F64.div fh fw)).
  { apply (div_sign false false).
    - apply (of_int_sign _ _ _ (of_Z_sign_pos _ Hh) E1).
    - apply (of_int_sign _ _ _ (of_Z_sign_pos _ Hw) E2). }
  assert (Hp : sign_is s (F64.mul (F64.mul fx (F64.div fh fw)) f0_5)).
  { replace s with (xorb (xorb s false) false) by (destruct s; reflexivity).
    apply mul_sign; [apply mul_sign|].
    - apply (of_int_sign _ _ _ Hs E3).
    - exact Hq.
    - exact f0_5_sign. }
  destruct s.
  - eapply to_int_sign_true; eassumption.
  - eapply to_int_sign_false; eassumption.
Qed.

(** ** Loops *)

Lemma range_length (n : Z) : List.length (range n) = Z.to_nat n.
Proof. unfold range. now rewrite length_map, length_seq. Qed.

Lemma range_In_inv (n c : Z) : In c (range n) -> 0 <= c < n.
Proof.
  unfold range. intros H. apply in_map_iff in H.
  destruct H as (k & <- & Hk). apply in_seq in Hk. lia.
Qed.

Section ForEach.

Context {A B : Type}.
Variable f : A -> result B.

Lemma for_each_length (xs : list A) (ys : list B) :
  for_each f xs = Ok ys -> List.length ys = List.length xs.
Proof.
  revert ys. induction xs as [| x xs IH]; intros ys H; simpl in H.
  - inversion H. reflexivity.
  - destruct (f x) as [y | e]; [|discriminate H]. cbn [bind] in H.
    destruct (for_each f xs) as [ys' | e]; [|discriminate H].
    inversion H. simpl. f_equal. apply IH. reflexivity.
Qed.

Lemma for_each_total (xs : list A) :
  (forall x, In x xs -> exists y, f x = Ok y) ->
  exists ys, for_each f xs = Ok ys.
Proof.
  induction xs as [| x xs IH]; intros H; simpl.
  - eexists. reflexivity.
  - destruct (H x (or_introl eq_refl)) as (y & ->).
    destruct IH as (ys & ->); [intros; apply H; now right|].
    eexists. reflexivity.
Qed.

Lemma for_each_Forall (P : B -> Prop) (xs : list A) (ys : list B) :
  (forall x y, In x xs -> f x = Ok y -> P y) ->
  for_each f xs = Ok ys -> Forall P ys.
Proof.
  revert ys. induction xs as [| x xs IH]; intros ys HP H; simpl in H.
  - inversion H. constructor.
  - destruct (f x) as [y | e] eqn:E; [|discriminate H]. cbn [bind] in H.
    destruct (for_each f xs) as [ys' | e]; [|discriminate H].
    inversion H. constructor.
    + apply (HP x); [now left | exact E].
    + apply IH; [|reflexivity]. intros x' y' Hin. apply HP. now right.
Qed.

Lemma for_each_ext (g : A -> result B) (xs : list A) :
  (forall x, f x = g x) -> for_each f xs = for_each g xs.
Proof.
  intros H. induction xs as [| x xs IH]; simpl; [reflexivity|].
  now rewrite H, IH.
Qed.

Lemma for_each_then_map {C : Type} (h : B -> C) (xs : list A) :
  for_each (fun x => c <- f x ;; Ok (h c)) xs =
  (ys <- for_each f xs ;; Ok (map h ys)).
Proof.
  induction xs as [| x xs IH]; simpl; [reflexivity|].
  destruct (f x) as [y | e]; [|reflexivity]. cbn [bind]. rewrite IH.
  destruct (for_each f xs); reflexivity.
Qed.

End ForEach.

(** The text is the rendering of the grid of (glyph, colour) pairs. *)
Lemma render_line_cells (img : Image.t) (width y : Z) :
  render_line img width y =
  (cells <- classify_line img width y ;;
   Ok (List.concat (map render_cell cells))).
Proof.
  unfold render_line, classify_line.
  rewrite (for_each_ext _
             (fun x => c <- (p <- Image.getpixel img x y ;; classify p) ;;
                       Ok (render_cell c))).
  - rewrite for_each_then_map.
    destruct (for_each _ (range width)); reflexivity.
  - intros x. destruct (Image.getpixel img x y); reflexivity.
Qed.

Lemma orla_to_ascii_renders_grid (E : env)
      (image_path : str) (width : Z) :
  orla_to_ascii E image_path width =
  (grid <- orla_grid E image_path width ;; Ok (render_grid grid)).
Proof.
  unfold orla_to_ascii, orla_grid, render_grid.
  destruct (Image.open (files E) image_path) as [img | e]; [|reflexivity].
  cbn [bind]. destruct (target_height img width) as [h | e]; [|reflexivity].
  cbn [bind]. destruct (Image.resize (allocates E) img width h) as [img' | e];
    [|reflexivity].
  cbn [bind].
  rewrite (for_each_ext _ _ _ (render_line_cells img' width)).
  rewrite for_each_then_map.
  destruct (for_each (classify_line img' width) (range h)); reflexivity.
Qed.

(** ** The resize *)

Lemma resize_ok (alloc : Z -> Z -> bool) (img img' : Image.t) (w h : Z) :
  0 < Image.width img -> 0 < Image.height img ->
  Image.resize alloc img w h = Ok img' ->
  1 <= w /\ 1 <= h /\ alloc w h = true /\
  Image.width img' = w /\ Image.height img' = h /\
  forall x y, Image.px img' x y = RGBA 0 0 0 0 \/
              exists x' y', Image.px img' x y = Image.px img x' y'.
Proof.
  intros Hw Hh. unfold Image.resize.
  destruct ((w =? Image.width img) && (h =? Image.height img)) eqn:E.
  - destruct (alloc w h) eqn:Ea; [|discriminate].
    intros H. inversion H. subst img'. apply andb_prop in E.
    destruct E as [E1 E2]. apply Z.eqb_eq in E1, E2.
    repeat split; try lia. intros x y. right. now exists x, y.
  - destruct (_ || _ || _ || _); [discriminate|].
    destruct ((w <? 1) || (h <? 1)) eqn:E2; [discriminate|].
    destruct (alloc w h) eqn:Ea; [|discriminate].
    intros H. inversion H. simpl. apply orb_false_elim in E2.
    destruct E2 as [E3 E4]. apply Z.ltb_ge in E3, E4.
    repeat split; try lia. intros x y.
    destruct (Image.nearest (Image.width img) w x) as [i |];
      [|now left].
    destruct (Image.nearest (Image.height img) h y) as [j |];
      [|now left].
    right. now exists i, j.
Qed.

Lemma resize_succeeds (alloc : Z -> Z -> bool) (img : Image.t) (w h : Z) :
  1 <= w <= Image.INT_MAX -> 1 <= h <= Image.INT_MAX ->
  alloc w h = true ->
  exists img', Image.resize alloc img w h = Ok img'.
Proof.
  intros Hw Hh Ha. unfold Image.resize. rewrite Ha.
  destruct ((w =? Image.width img) && (h =? Image.height img));
    [eexists; reflexivity|].
  unfold Image.INT_MAX in *.
  destruct (w <? - (2 ^ 31 - 1) - 1) eqn:E1; [apply Z.ltb_lt in E1; lia|].
  destruct (2 ^ 31 - 1 <? w) eqn:E2; [apply Z.ltb_lt in E2; lia|].
  destruct (h <? - (2 ^ 31 - 1) - 1) eqn:E3; [apply Z.ltb_lt in E3; lia|].
  destruct (2 ^ 31 - 1 <? h) eqn:E4; [apply Z.ltb_lt in E4; lia|].
  destruct (w <? 1) eqn:E5; [apply Z.ltb_lt in E5; lia|].
  destruct (h <? 1) eqn:E6; [apply Z.ltb_lt in E6; lia|].
  eexists. reflexivity.
Qed.

(** A size below 1 is refused; within the C ints with Pillow's
    [ValueError]. *)
Lemma resize_rejects (alloc : Z -> Z -> bool) (img : Image.t) (w h : Z) :
  0 < Image.width img -> 0 < Image.height img ->
  w < 1 \/ h < 1 ->
  exists e, Image.resize alloc img w h = Raise e /\
            (- Image.INT_MAX - 1 <= w <= Image.INT_MAX ->
             - Image.INT_MAX - 1 <= h <= Image.INT_MAX ->
             e = ValueError "height and width must be > 0").
Proof.
  intros Hw Hh Hs. unfold Image.resize.
  destruct ((w =? Image.width img) && (h =? Image.height img)) eqn:E.
  { apply andb_prop in E. destruct E as [E1 E2]. apply Z.eqb_eq in E1, E2.
    lia. }
  destruct (_ || _ || _ || _) eqn:E2.
  - eexists. split; [reflexivity|]. intros H1 H2. exfalso.
    unfold Image.INT_MAX in *. lia.
  - destruct ((w <? 1) || (h <? 1)) eqn:E3.
    + eexists. split; [reflexivity|]. reflexivity.
    + exfalso. lia.
Qed.

Lemma resized_pixels_wf (alloc : Z -> Z -> bool) (img img' : Image.t)
      (w h : Z) :
  wf_image img -> Image.resize alloc img w h = Ok img' ->
  forall x y, wf_pixel (Image.px img' x y).
Proof.
  intros (Hiw & Hih & Hpx) Hr x y.
  destruct (resize_ok alloc img img' w h) as (_ & _ & _ & _ & _ & Hsrc);
    try lia; [exact Hr|].
  destruct (Hsrc x y) as [-> | (x' & y' & ->)]; [|apply Hpx].
  unfold wf_pixel, byte. simpl. lia.
Qed.

Lemma getpixel_in_range (img : Image.t) (x y : Z) :
  0 <= x < Image.width img -> 0 <= y < Image.height img ->
  Image.getpixel img x y = Ok (Image.px img x y).
Proof.
  intros Hx Hy. unfold Image.getpixel.
  destruct (x <? 0) eqn:Ex; [apply Z.ltb_lt in Ex; lia|].
  destruct (y <? 0) eqn:Ey; [apply Z.ltb_lt in Ey; lia|].
  destruct (0 <=? x) eqn:E1; [|apply Z.leb_gt in E1; lia].
  destruct (x <? Image.width img) eqn:E2; [|apply Z.ltb_ge in E2; lia].
  destruct (0 <=? y) eqn:E3; [|apply Z.leb_gt in E3; lia].
  destruct (y <? Image.height img) eqn:E4; [|apply Z.ltb_ge in E4; lia].
  reflexivity.
Qed.

Lemma classify_line_ok (img : Image.t) (y : Z) :
  (forall x y, wf_pixel (Image.px img x y)) ->
  0 <= y < Image.height img ->
  exists row, classify_line img (Image.width img) y = Ok row /\
              List.length row = Z.to_nat (Image.width img) /\
              Forall (fun c => 16 <= snd c <= 231) row.
Proof.
  intros Hpx Hy. unfold classify_line.
  destruct (for_each_total
              (fun x => p <- Image.getpixel img x y ;; classify p)
              (range (Image.width img))) as (row & Hrow).
  { intros x Hx. apply range_In_inv in Hx.
    rewrite getpixel_in_range by assumption. cbn [bind].
    destruct (classify_total _ (Hpx x y)) as (c & Hc & _). now exists c. }
  exists row. split; [exact Hrow|]. split.
  - rewrite (for_each_length _ _ _ Hrow). apply range_length.
  - refine (for_each_Forall _ _ _ _ _ Hrow). intros x c Hx H.
    apply range_In_inv in Hx. cbv beta in H.
    rewrite getpixel_in_range in H by assumption. cbn [bind] in H.
    destruct (classify_total _ (Hpx x y)) as (c' & Hc & Hr).
    rewrite Hc in H. inversion H. subst c'. exact Hr.
Qed.

Lemma grid_ok (img : Image.t) :
  (forall x y, wf_pixel (Image.px img x y)) ->
  exists grid,
    for_each (classify_line img (Image.width img)) (range (Image.height img))
    = Ok grid /\
    List.length grid = Z.to_nat (Image.height img) /\
    Forall (fun row => List.length row = Z.to_nat (Image.width img)) grid /\
    Forall (Forall (fun c => 16 <= snd c <= 231)) grid.
Proof.
  intros Hpx.
  destruct (for_each_total (classify_line img (Image.width img))
                           (range (Image.height img))) as (grid & Hg).
  { intros y Hy. apply range_In_inv in Hy.
    destruct (classify_line_ok img y Hpx Hy) as (row & Hrow & _).
    now exists row. }
  exists grid. split; [exact Hg|]. split.
  - rewrite (for_each_length _ _ _ Hg). apply range_length.
  - split.
    + refine (for_each_Forall _ _ _ _ _ Hg). intros y row Hy Hrow.
      apply range_In_inv in Hy.
      destruct (classify_line_ok img y Hpx Hy) as (row' & Hrow' & Hl & _).
      rewrite Hrow' in Hrow. inversion Hrow. now subst.
    + refine (for_each_Forall _ _ _ _ _ Hg). intros y row Hy Hrow.
      apply range_In_inv in Hy.
      destruct (classify_line_ok img y Hpx Hy) as (row' & Hrow' & _ & Hc).
      rewrite Hrow' in Hrow. inversion Hrow. now subst.
Qed.

(** ** The pipeline, by outcome of the resize *)

Section PipelineFacts.

Variable E : env.
Variables (path : str) (img : Image.t).
Hypothesis Hfile : files E path = Image.Picture img.
Hypothesis Hwf : wf_image img.

Lemma open_file : Image.open (files E) path = Ok img.
Proof. unfold Image.open. now rewrite Hfile. Qed.

Lemma pipeline_height_error (w : Z) (e : exn) :
  target_height img w = Raise e -> orla_to_ascii E path w = Raise e.
Proof.
  intros H. unfold orla_to_ascii. rewrite open_file. cbn [bind].
  now rewrite H.
Qed.

Lemma pipeline_rejected (w h : Z) :
  target_height img w = Ok h -> w < 1 \/ h < 1 ->
  exists e, orla_to_ascii E path w = Raise e /\
            Image.resize (allocates E) img w h = Raise e /\
            (- Image.INT_MAX - 1 <= w <= Image.INT_MAX ->
             - Image.INT_MAX - 1 <= h <= Image.INT_MAX ->
             e = ValueError "height and width must be > 0").
Proof.
  intros Hh Hs. destruct Hwf as (Hw & Hht & _).
  destruct (resize_rejects (allocates E) img w h) as (e & He & Hv); try lia.
  exists e. split; [|split; assumption].
  unfold orla_to_ascii. rewrite open_file. cbn [bind]. rewrite Hh.
  cbn [bind]. now rewrite He.
Qed.

(** With room for the resized image the conversion returns. *)
Lemma pipeline_ok (w h : Z) :
  target_height img w = Ok h ->
  1 <= w <= Image.INT_MAX -> 1 <= h <= Image.INT_MAX ->
  allocates E w h = true ->
  exists grid,
    orla_grid E path w = Ok grid /\
    orla_to_ascii E path w = Ok (render_grid grid) /\
    List.length grid = Z.to_nat h /\
    Forall (fun row => List.length row = Z.to_nat w) grid /\
    Forall (Forall (fun c => 16 <= snd c <= 231)) grid.
Proof.
  intros Hh Hw Hht Ha. pose proof Hwf as (Hiw & Hih & Hpx).
  destruct (resize_succeeds (allocates E) img w h Hw Hht Ha) as (img' & Hr).
  destruct (resize_ok (allocates E) img img' w h)
    as (_ & _ & _ & Ew & Eh & _); try lia; [exact Hr|].
  destruct (grid_ok img') as (grid & Hg & Hl & Hrows & Hcol).
  { exact (resized_pixels_wf _ img img' w h Hwf Hr). }
  rewrite Ew, Eh in *.
  assert (Hgrid : orla_grid E path w = Ok grid).
  { unfold orla_grid. rewrite open_file. cbn [bind]. rewrite Hh.
    cbn [bind]. rewrite Hr. cbn [bind]. exact Hg. }
  exists grid. split; [exact Hgrid|].
  split; [rewrite orla_to_ascii_renders_grid, Hgrid; reflexivity|].
  repeat split; assumption.
Qed.

End PipelineFacts.

Lemma img2x2_wf : wf_image img2x2.
Proof.
  unfold wf_image, Image.INT_MAX. simpl. split; [lia|]. split; [lia|].
  intros x y.
  destruct x as [| [p | p |] | p]; destruct y as [| [q | q |] | q];
    unfold wf_pixel, byte; simpl; lia.
Qed.

Lemma img1x1_wf : wf_image img1x1.
Proof.
  unfold wf_image, Image.INT_MAX. simpl. split; [lia|]. split; [lia|].
  intros x y. unfold wf_pixel, byte; simpl; lia.
Qed.

(** ** What a returned text went through *)

Lemma Ok_inj {A : Type} (a b : A) : Ok a = Ok b -> a = b.
Proof. intros H. now injection H. Qed.

(** ** Lengths of the rendered text *)

Lemma render_cell_length (c : cell) : (13 <= List.length (render_cell c))%nat.
Proof.
  unfold render_cell. rewrite !length_app. simpl. lia.
Qed.

Lemma join_head_length (sep r : str) (rest : list str) :
  (List.length r <= List.length (join sep (r :: rest)))%nat.
Proof.
  destruct rest as [| r' rest]; simpl; [lia|].
  rewrite !length_app. lia.
Qed.

Lemma classify_line_length (img : Image.t) (w y : Z) (row : list cell) :
  classify_line img w y = Ok row -> List.length row = Z.to_nat w.
Proof.
  unfold classify_line. intros H.
  rewrite (for_each_length _ _ _ H). apply range_length.
Qed.

(** The shape of every grid that the two loops return. *)
Lemma grid_shape (E : env) (path : str) (w : Z)
      (grid : list (list cell)) :
  orla_grid E path w = Ok grid ->
  exists img h,
    Image.open (files E) path = Ok img /\ target_height img w = Ok h /\
    List.length grid = Z.to_nat h /\
    Forall (fun row => List.length row = Z.to_nat w) grid.
Proof.
  unfold orla_grid. intros H.
  destruct (Image.open (files E) path) as [img | e] eqn:Ho; [|discriminate H].
  cbn [bind] in H.
  destruct (target_height img w) as [h | e] eqn:Hh; [|discriminate H].
  cbn [bind] in H.
  destruct (Image.resize (allocates E) img w h) as [img' | e]; [|discriminate H].
  cbn [bind] in H. exists img, h.
  split; [reflexivity|]. split; [exact Hh|]. split.
  - rewrite (for_each_length _ _ _ H). apply range_length.
  - refine (for_each_Forall _ _ _ _ _ H). intros y row _.
    apply classify_line_length.
Qed.

(** What a returned grid went through. *)
Lemma grid_run (E : env) (path : str) (w : Z)
      (grid : list (list cell)) :
  orla_grid E path w = Ok grid ->
  exists img h img',
    Image.open (files E) path = Ok img /\ target_height img w = Ok h /\
    Image.resize (allocates E) img w h = Ok img' /\
    for_each (classify_line img' w) (range h) = Ok grid.
Proof.
  unfold orla_grid. intros H.
  destruct (Image.open (files E) path) as [img | e] eqn:Ho; [|discriminate H].
  cbn [bind] in H.
  destruct (target_height img w) as [h | e] eqn:Hh; [|discriminate H].
  cbn [bind] in H.
  destruct (Image.resize (allocates E) img w h) as [img' | e] eqn:Hr; [|discriminate H].
  cbn [bind] in H. exists img, h, img'. repeat split; assumption.
Qed.

Lemma text_run (E : env) (path : str) (w : Z)
      (text : str) :
  orla_to_ascii E path w = Ok text ->
  exists grid, orla_grid E path w = Ok grid /\ text = render_grid grid.
Proof.
  rewrite orla_to_ascii_renders_grid. intros H.
  destruct (orla_grid E path w) as [grid | e]; [|discriminate H].
  exists grid. split; [reflexivity|]. symmetry. now apply Ok_inj.
Qed.

Lemma open_inv (E : env) (path : str) (img : Image.t) :
  Image.open (files E) path = Ok img -> files E path = Image.Picture img.
Proof.
  unfold Image.open. destruct (files E path); intros H; try discriminate H.
  f_equal. now apply Ok_inj.
Qed.

(** ** Small integers are exact floats *)

Lemma digits2_pos_lower (m : positive) :
  2 ^ (Zpos (digits2_pos m) - 1) <= Zpos m.
Proof.
  induction m as [m IH | m IH |]; simpl digits2_pos.
  - rewrite Pos2Z.inj_succ.
    replace (Z.succ (Zpos (digits2_pos m)) - 1)
      with (Z.succ (Zpos (digits2_pos m) - 1)) by lia.
    rewrite Z.pow_succ_r by lia. lia.
  - rewrite Pos2Z.inj_succ.
    replace (Z.succ (Zpos (digits2_pos m)) - 1)
      with (Z.succ (Zpos (digits2_pos m) - 1)) by lia.
    rewrite Z.pow_succ_r by lia. lia.
  - simpl. lia.
Qed.

Lemma digits_small (p : positive) (k : Z) :
  0 <= k -> Zpos p < 2 ^ k -> Zpos (digits2_pos p) <= k.
Proof.
  intros Hk H. pose proof (digits2_pos_lower p) as Hl.
  destruct (Z_le_gt_dec (Zpos (digits2_pos p)) k) as [| Hgt];
    [assumption | exfalso].
  assert (2 ^ k <= 2 ^ (Zpos (digits2_pos p) - 1))
    by (apply Z.pow_le_mono_r; lia).
  lia.
Qed.

Lemma digits_iter_xO (p k : positive) :
  digits2_pos (Pos.iter xO p k) = (digits2_pos p + k)%positive.
Proof.
  induction k as [| k IH] using Pos.peano_ind.
  - simpl. lia.
  - rewrite Pos.iter_succ. simpl digits2_pos. rewrite IH. lia.
Qed.

Lemma round_aux_exact (s : bool) (m : positive) (e : Z) :
  Zpos (digits2_pos m) = 53 -> -1074 <= e <= 971 ->
  binary_round_aux prec emax s (Zpos m) e loc_Exact = S754_finite s m e.
Proof.
  intros Hd He. unfold binary_round_aux.
  assert (Hs : shr_fexp prec emax (Zpos m) e loc_Exact
               = ({| shr_m := Zpos m; shr_r := false; shr_s := false |}, e)).
  { unfold shr_fexp, Zdigits2, fexp, SpecFloat.emin, shr_record_of_loc.
    rewrite Hd. unfold prec, emax.
    replace (Z.max (53 + e - 53) (3 - 1024 - 53) - e) with 0 by lia.
    reflexivity. }
  rewrite Hs. cbn [shr_m loc_of_shr_record round_nearest_even].
  rewrite Hs. cbn [shr_m].
  destruct (e <=? emax - prec) eqn:E; [reflexivity|].
  apply Z.leb_gt in E. unfold prec, emax in E. lia.
Qed.

Lemma round_small (s : bool) (p : positive) :
  Zpos p < 2 ^ 53 -> exists m e, binary_round prec emax s p 0 = S754_finite s m e.
Proof.
  intros Hp. unfold binary_round.
  assert (Hd : Zpos (digits2_pos p) <= 53) by (apply digits_small; lia).
  unfold fexp, SpecFloat.emin, prec, emax, shl_align.
  replace (Z.max (Zpos (digits2_pos p) + 0 - 53) (3 - 1024 - 53))
    with (Zpos (digits2_pos p) - 53) by lia.
  destruct (Zpos (digits2_pos p) - 53 - 0) as [| q | q] eqn:Ed; try lia.
  - eexists. eexists. apply round_aux_exact; lia.
  - eexists. eexists. apply round_aux_exact.
    + rewrite digits_iter_xO. lia.
    + lia.
Qed.

(** [float(z)] succeeds below [2^53] in absolute value. *)
Lemma of_int_small (z : Z) :
  - 2 ^ 53 < z < 2 ^ 53 -> F64.of_int z = Ok (F64.of_Z z).
Proof.
  intros Hz. unfold F64.of_int.
  destruct z as [| p | p].
  - reflexivity.
  - destruct (round_small false p) as (m & e & H); [lia|].
    unfold F64.of_Z, binary_normalize. now rewrite H.
  - destruct (round_small true p) as (m & e & H); [lia|].
    unfold F64.of_Z, binary_normalize. now rewrite H.
Qed.

Lemma of_int_value (z : Z) (x : F64.t) :
  F64.of_int z = Ok x -> x = F64.of_Z z.
Proof.
  unfold F64.of_int. intros H.
  destruct (F64.of_Z z); try discriminate H; symmetry; now apply Ok_inj.
Qed.

(* ================================================================== *)
(** * The claims about the height and the width *)

Lemma target_height_formula (img : Image.t) (w h : Z) :
  target_height img w = Ok h -> height_formula img w = Ok h.
Proof.
  unfold target_height, F64.truediv, F64.int_mul, height_formula.
  destruct (Image.width img =? 0); [discriminate|].
  destruct (F64.of_int (Image.height img)) as [fh | e1] eqn:E1;
    [|discriminate].
  destruct (F64.of_int (Image.width img)) as [fw | e2] eqn:E2;
    [|discriminate].
  cbn [bind]. destruct (F64.of_int w) as [fx | e3] eqn:E3; [|discriminate].
  cbn [bind]. apply of_int_value in E1, E2, E3. subst fh fw fx.
  intros H. exact H.
Qed.

Lemma target_height_is_formula (img : Image.t) (w : Z) :
  wf_image img -> - 2 ^ 53 < w < 2 ^ 53 ->
  target_height img w = height_formula img w.
Proof.
  intros (Hiw & Hih & _) Hw. unfold Image.INT_MAX in *.
  unfold target_height, F64.truediv, F64.int_mul, height_formula.
  destruct (Image.width img =? 0) eqn:E0; [apply Z.eqb_eq in E0; lia|].
  rewrite !of_int_small by lia. reflexivity.
Qed.

(** C3, as stated, fails where the height evaluates to 0: for the 2x2 image
    and width 1 the height is 0 and the resize to (1, 0) is refused, so the
    conversion raises instead of returning an empty text. *)
Lemma zero_height_counterexample :
  let E := one_file logo_png img2x2 in
  target_height img2x2 1 = Ok 0 /\
  Image.resize (allocates E) img2x2 1 0
  = Raise (ValueError "height and width must be > 0") /\
  orla_to_ascii E logo_png 1
  = Raise (ValueError "height and width must be > 0").
Proof. cbv zeta. repeat split; vm_compute; reflexivity. Qed.

(** C3, amended. For every valid image and positive width the height is
    [int(width * (image.height / image.width) * 0.5)] in binary64; it is
    never negative; a text that is returned has exactly that many lines of
    [width] cells; and when the height is 0 the resize is refused and the
    conversion fails (with Pillow's [ValueError] for a width within the C
    ints). *)
Theorem height_of_output (E : env) (path : str) (img : Image.t) (w : Z) :
  files E path = Image.Picture img -> wf_image img -> 0 < w ->
  (w < 2 ^ 53 ->
   target_height img w =
   F64.to_int
     (F64.mul (F64.mul (F64.of_Z w)
                       (F64.div (F64.of_Z (Image.height img))
                                (F64.of_Z (Image.width img))))
              (F64.dec 5 10))) /\
  (forall h, target_height img w = Ok h ->
             height_formula img w = Ok h /\
             0 <= h /\
             (h = 0 ->
              exists e, orla_to_ascii E path w = Raise e /\
                        (w <= Image.INT_MAX ->
                         e = ValueError "height and width must be > 0")) /\
             (forall text,
                 orla_to_ascii E path w = Ok text ->
                 exists grid,
                   text = render_grid grid /\
                   List.length grid = Z.to_nat h /\
                   Forall (fun row => List.length row = Z.to_nat w) grid)) /\
  (forall e, target_height img w = Raise e ->
             orla_to_ascii E path w = Raise e).
Proof.
  intros Hfile Hwf Hw. split; [|split].
  - intros Hsmall. apply (target_height_is_formula img w Hwf). lia.
  - intros h Hh. pose proof Hwf as (Hiw & Hih & _).
    split; [now apply target_height_formula|].
    split.
    { apply (target_height_sign false img w h); try lia; [|exact Hh].
      apply of_Z_sign_pos. exact Hw. }
    split.
    + intros ->.
      destruct (pipeline_rejected E path img Hfile Hwf w 0 Hh)
        as (e & He & _ & Hv); [lia|].
      exists e. split; [exact He|]. intros Hm. apply Hv.
      * unfold Image.INT_MAX in *. lia.
      * unfold Image.INT_MAX. lia.
    + intros text Htext.
      destruct (text_run _ _ _ _ Htext) as (grid & Hg & ->).
      destruct (grid_shape _ _ _ _ Hg) as (img0 & h0 & Ho & Hh0 & Hl & Hrows).
      apply open_inv in Ho. rewrite Hfile in Ho. inversion Ho. subst img0.
      rewrite Hh in Hh0. apply Ok_inj in Hh0. subst h0.
      exists grid. repeat split; assumption.
  - intros e He. now apply pipeline_height_error with (img := img).
Qed.

Lemma height_of_output_witness :
  let E := one_file logo_png img2x2 in
  (4 < 2 ^ 53 ->
   target_height img2x2 4 =
   F64.to_int
     (F64.mul (F64.mul (F64.of_Z 4)
                       (F64.div (F64.of_Z (Image.height img2x2))
                                (F64.of_Z (Image.width img2x2))))
              (F64.dec 5 10))) /\
  (forall h, target_height img2x2 4 = Ok h ->
             height_formula img2x2 4 = Ok h /\
             0 <= h /\
             (h = 0 ->
              exists e, orla_to_ascii E logo_png 4 = Raise e /\
                        (4 <= Image.INT_MAX ->
                         e = ValueError "height and width must be > 0")) /\
             (forall text,
                 orla_to_ascii E logo_png 4 = Ok text ->
                 exists grid,
                   text = render_grid grid /\
                   List.length grid = Z.to_nat h /\
                   Forall (fun row => List.length row = Z.to_nat 4) grid)) /\
  (forall e, target_height img2x2 4 = Raise e ->
             orla_to_ascii E logo_png 4 = Raise e).
Proof.
  apply (height_of_output (one_file logo_png img2x2) logo_png img2x2 4).
  - reflexivity.
  - exact img2x2_wf.
  - lia.
Defined.

(** C4, as stated, fails: nothing checks the width at the entry.  With
    width 0 (and with width 1 on a square image) the height is computed, the
    resize is called with it and refuses, and the exception leaves the
    program through a traceback. *)
Lemma width_zero_counterexample :
  let E := one_file logo_png img2x2 in
  let refused := ValueError "height and width must be > 0" in
  target_height img2x2 0 = Ok 0 /\
  Image.resize (allocates E) img2x2 0 0 = Raise refused /\
  main E [script; logo_png; lit "0"]
  = {| stdout := []; stderr := [Traceback refused]; exit_status := 1 |} /\
  main E [script; logo_png; lit "1"]
  = {| stdout := []; stderr := [Traceback refused]; exit_status := 1 |}.
Proof. cbv zeta. repeat split; vm_compute; reflexivity. Qed.

(** C4, amended. For every width <= 0, and for every width whose height
    computes to 0 (width 1 on a square image, for one), the conversion
    fails, not by a check at the entry but in the calls it makes: either
    the height cannot be computed, or it is <= 0 and the resize refuses the
    size (with Pillow's [ValueError] within the C ints); the command line
    does not catch the exception and ends with its traceback and exit
    status 1, whatever word [int()] read the width from. *)
Theorem nonpositive_width_fails (E : env) (path : str) (img : Image.t)
        (w : Z) :
  files E path = Image.Picture img -> wf_image img ->
  w <= 0 \/ target_height img w = Ok 0 ->
  exists e,
    orla_to_ascii E path w = Raise e /\
    (target_height img w = Raise e \/
     exists h, target_height img w = Ok h /\ h <= 0 /\
               Image.resize (allocates E) img w h = Raise e /\
               (- Image.INT_MAX - 1 <= w <= Image.INT_MAX ->
                - Image.INT_MAX - 1 <= h ->
                e = ValueError "height and width must be > 0")) /\
    (forall prog arg,
        py_int E arg = Ok w ->
        main E [prog; path; arg]
        = {| stdout := []; stderr := [Traceback e]; exit_status := 1 |}).
Proof.
  intros Hfile Hwf Hw. pose proof Hwf as (Hiw & Hih & _).
  assert (He : exists e,
             orla_to_ascii E path w = Raise e /\
             (target_height img w = Raise e \/
              exists h, target_height img w = Ok h /\ h <= 0 /\
                        Image.resize (allocates E) img w h = Raise e /\
                        (- Image.INT_MAX - 1 <= w <= Image.INT_MAX ->
                         - Image.INT_MAX - 1 <= h ->
                         e = ValueError "height and width must be > 0"))).
  { destruct (target_height img w) as [h | e] eqn:Hh.
    - assert (Hneg : h <= 0).
      { destruct Hw as [Hw | Hw]; [|apply Ok_inj in Hw; lia].
        apply (target_height_sign true img w h); try lia; [|exact Hh].
        apply of_Z_sign_nonpos. exact Hw. }
      destruct (pipeline_rejected E path img Hfile Hwf w h Hh)
        as (e & He & Hr & Hv); [lia|].
      exists e. split; [exact He|]. right. exists h.
      repeat split; try assumption. intros H1 H2. apply Hv.
      + exact H1.
      + unfold Image.INT_MAX in *. lia.
    - exists e. split; [|now left].
      now apply pipeline_height_error with (img := img). }
  destruct He as (e & He & Hcases). exists e.
  split; [exact He|]. split; [exact Hcases|].
  intros prog arg Harg. unfold main. cbn -[orla_to_ascii py_int].
  rewrite Harg. cbn [bind]. now rewrite He.
Qed.

Lemma nonpositive_width_fails_witness :
  let E := one_file logo_png img2x2 in
  exists e,
    orla_to_ascii E logo_png 1 = Raise e /\
    (target_height img2x2 1 = Raise e \/
     exists h, target_height img2x2 1 = Ok h /\ h <= 0 /\
               Image.resize (allocates E) img2x2 1 h = Raise e /\
               (- Image.INT_MAX - 1 <= 1 <= Image.INT_MAX ->
                - Image.INT_MAX - 1 <= h ->
                e = ValueError "height and width must be > 0")) /\
    (forall prog arg,
        py_int E arg = Ok 1 ->
        main E [prog; logo_png; arg]
        = {| stdout := []; stderr := [Traceback e]; exit_status := 1 |}).
Proof.
  apply (nonpositive_width_fails (one_file logo_png img2x2) logo_png img2x2 1).
  - reflexivity.
  - exact img2x2_wf.
  - right. vm_compute. reflexivity.
Defined.

(* ================================================================== *)
(** * The two scenarios *)

(** C7, as stated, fails on the sampled row: resizing 2 rows to 1 reads the
    row under the centre of the output cell, which is the bottom one, so the
    output is not the classification of the top row's pixels. *)
Lemma top_row_counterexample :
  Image.nearest 2 1 0 = Some 1 /\
  ~ (exists c0 c1,
        classify (Image.px img2x2 0 0) = Ok c0 /\
        classify (Image.px img2x2 1 0) = Ok c1 /\
        orla_grid (one_file logo_png img2x2) logo_png 2 = Ok [[c0; c1]]).
Proof.
  split; [reflexivity|]. intros (c0 & c1 & H0 & H1 & H).
  vm_compute in H0, H1, H. inversion H0. subst c0. discriminate H.
Qed.

(** C7, amended. For the 2x2 image and width 2 the height is 1 and the
    output is a single row of two cells; they are the classification of the
    two pixels that the nearest-neighbour resize reads, those of the bottom
    row: colour 34 for (0,154,0) and colour 196 for (255,0,0), both with the
    first palette character. *)
Theorem two_by_two_scenario :
  let E := one_file logo_png img2x2 in
  target_height img2x2 2 = Ok 1 /\
  exists c0 c1,
    classify (Image.px img2x2 0 1) = Ok c0 /\
    classify (Image.px img2x2 1 1) = Ok c1 /\
    orla_grid E logo_png 2 = Ok [[c0; c1]] /\
    orla_to_ascii E logo_png 2 = Ok (render_cell c0 ++ render_cell c1) /\
    c0 = (226%N, 34) /\ c1 = (226%N, 196).
Proof.
  cbv zeta. split; [vm_compute; reflexivity|].
  exists (226%N, 34), (226%N, 196).
  repeat split; vm_compute; reflexivity.
Qed.

(** C8, as stated, fails for every width: a 1x1 image gives no output of
    exactly one cell.  Width 1 makes the height 0, and a width of 2 or more
    puts that many cells on each line. *)
Lemma single_cell_counterexample :
  ~ (exists w,
        orla_to_ascii (one_file logo_png img1x1) logo_png w
        = Ok (render_cell (space, 16))).
Proof.
  intros (w & H). rewrite orla_to_ascii_renders_grid in H.
  destruct (orla_grid (one_file logo_png img1x1) logo_png w)
    as [grid | e] eqn:Hg; [|discriminate H].
  cbn [bind] in H. inversion H as [Htext]. clear H.
  destruct (grid_shape _ _ _ _ Hg) as (img & h & Ho & Hh & Hl & Hrows).
  change (Image.open (files (one_file logo_png img1x1)) logo_png)
    with (Ok img1x1)
    in Ho.
  inversion Ho. subst img. clear Ho.
  unfold orla_grid in Hg.
  change (Image.open (files (one_file logo_png img1x1)) logo_png)
    with (Ok img1x1)
    in Hg.
  cbn [bind] in Hg. rewrite Hh in Hg. cbn [bind] in Hg.
  destruct (Image.resize (allocates (one_file logo_png img1x1)) img1x1 w h) as [img' | e] eqn:Hr; [|discriminate Hg].
  destruct (resize_ok (allocates (one_file logo_png img1x1)) img1x1 img' w h)
    as (Hw & Hh1 & _);
    [simpl; lia | simpl; lia | exact Hr |].
  assert (Hw2 : 2 <= w).
  { destruct (Z.eq_dec w 1) as [-> |]; [|lia].
    vm_compute in Hh. inversion Hh. lia. }
  destruct grid as [| row rest]; [simpl in Hl; lia|].
  inversion Hrows as [| ? ? Hrow _]. subst.
  destruct row as [| c0 [| c1 row]]; simpl in Hrow; try lia.
  apply (f_equal (@List.length char)) in Htext.
  unfold render_grid in Htext. cbn [map List.concat] in Htext.
  match type of Htext with
  | List.length (join ?s (?r :: ?t)) = _ =>
      pose proof (join_head_length s r t) as Hj
  end.
  pose proof (render_cell_length c0) as L0.
  pose proof (render_cell_length c1) as L1.
  change (List.length (render_cell (space, 16))) with 15%nat in Htext.
  unfold str, char in Hj, Htext, L0, L1. rewrite Htext in Hj.
  rewrite !length_app in Hj. lia.
Qed.

(** C8, amended. For the fully transparent 1x1 image every cell is a space
    between ESC[38;5;16m and ESC[0m; width 2 gives a single line of two such
    cells, the default width 40 gives twenty lines of forty, and width 1
    gives height 0, for which the conversion fails. *)
Theorem transparent_pixel_scenario :
  let E := one_file logo_png img1x1 in
  let blank := (ESC ++ lit "[38;5;16m" ++ [space] ++ ESC ++ lit "[0m")%list in
  render_cell (space, 16) = blank /\
  orla_to_ascii E logo_png 2 = Ok (blank ++ blank) /\
  orla_grid E logo_png 40 = Ok (repeat (repeat (space, 16) 40) 20) /\
  target_height img1x1 1 = Ok 0 /\
  orla_to_ascii E logo_png 1
  = Raise (ValueError "height and width must be > 0").
Proof. cbv zeta. repeat split; vm_compute; reflexivity. Qed.

(* ================================================================== *)
(** * The command line *)

(** C9: run without an image path, the program does end with status 1, but
    with the traceback of an [IndexError] and not with the usage message:
    the guard [len(sys.argv) < 1] is false for the one-word command line. *)
Theorem missing_path_traceback (E : env) (prog : str) :
  main E [prog]
  = {| stdout := []; stderr := [Traceback IndexError]; exit_status := 1 |}.
Proof. reflexivity. Qed.

(* ================================================================== *)
(** * Further properties of rgb_to_ansi *)

Lemma level_spec_div_51 (c : Z) : level_spec c = c / 51.
Proof.
  unfold level_spec. change 255 with (51 * 5).
  apply Z.div_mul_cancel_r; lia.
Qed.

(** X1. On an 8-bit channel the cube level [int((c / 255.0) * 5)] is
    [c // 51]: the float rounding never moves a value across a multiple of
    51, and level 5 is reached by 255 alone. *)
Theorem cube_level_is_div_51 (c : Z) :
  byte c ->
  cube_level c = Ok (c / 51) /\ 0 <= c / 51 <= 5 /\ (c / 51 = 5 <-> c = 255).
Proof.
  intros Hc. rewrite cube_level_exact by exact Hc.
  rewrite level_spec_div_51. unfold byte in Hc.
  split; [reflexivity|]. split; [div_lia | split; div_lia].
Qed.

Lemma cube_level_is_div_51_witness :
  cube_level 153 = Ok (153 / 51) /\ 0 <= 153 / 51 <= 5 /\
  (153 / 51 = 5 <-> 153 = 255).
Proof. apply (cube_level_is_div_51 153). unfold byte. lia. Defined.

Lemma rgb_to_ansi_div_51 (r g b : Z) :
  byte r -> byte g -> byte b ->
  rgb_to_ansi r g b =
  Ok (if (r =? g) && (g =? b) && (r <? 8) then 16
      else if (r =? g) && (g =? b) && (248 <? r) then 231
      else 16 + (r / 51) * 36 + (g / 51) * 6 + b / 51).
Proof.
  intros Hr Hg Hb. rewrite rgb_to_ansi_spec by assumption.
  unfold color_spec, cube_spec. now rewrite !level_spec_div_51.
Qed.

Lemma plain_cube_iff (r g b : Z) :
  byte r -> byte g -> byte b ->
  (rgb_to_ansi r g b = Ok (16 + (r / 51) * 36 + (g / 51) * 6 + b / 51)
   <-> ~ (r = g /\ g = b /\ 249 <= r <= 254)).
Proof.
  intros Hr Hg Hb. rewrite rgb_to_ansi_div_51 by assumption.
  unfold byte in *.
  destruct ((r =? g) && (g =? b) && (r <? 8)) eqn:E1;
    [| destruct ((r =? g) && (g =? b) && (248 <? r)) eqn:E2].
  - split; [intros _; lia|]. intros _. f_equal.
    assert (r = g /\ g = b /\ r < 8) as (-> & -> & Hlt) by lia.
    assert (b / 51 = 0) as -> by (apply Z.div_small; lia). reflexivity.
  - assert (r = g /\ g = b /\ 248 < r) as (-> & -> & Hlt) by lia.
    split.
    + intros H (_ & _ & Hrange). apply Ok_inj in H.
      clear - H Hrange. div_lia.
    + intros H. f_equal. assert (b = 255) as -> by lia. reflexivity.
  - split; [intros _; lia | reflexivity].
Qed.

(** X2. The two special cases change the answer of the plain cube formula
    on the greys 249..254 only: the black case returns what the formula
    returns anyway, and so does the white case on 255. *)
Theorem special_cases_matter_on_249_254 (r g b : Z) :
  byte r -> byte g -> byte b ->
  (rgb_to_ansi r g b = Ok (16 + (r / 51) * 36 + (g / 51) * 6 + b / 51)
   <-> ~ (r = g /\ g = b /\ 249 <= r <= 254)).
Proof. exact (plain_cube_iff r g b). Qed.

Lemma special_cases_matter_on_249_254_witness :
  rgb_to_ansi 250 250 250
  = Ok (16 + (250 / 51) * 36 + (250 / 51) * 6 + 250 / 51)
  <-> ~ (250 = 250 /\ 250 = 250 /\ 249 <= 250 <= 254).
Proof.
  apply (special_cases_matter_on_249_254 250 250 250); unfold byte; lia.
Defined.

(** X3. Away from those greys the colour index can be decoded: it gives
    back the three cube levels of the colour. *)
Theorem cube_index_decodes (r g b i : Z) :
  byte r -> byte g -> byte b ->
  ~ (r = g /\ g = b /\ 249 <= r <= 254) ->
  rgb_to_ansi r g b = Ok i ->
  (i - 16) / 36 = r / 51 /\
  ((i - 16) / 6) mod 6 = g / 51 /\
  (i - 16) mod 6 = b / 51.
Proof.
  intros Hr Hg Hb Hgrey Hi.
  apply (plain_cube_iff r g b Hr Hg Hb) in Hgrey.
  rewrite Hgrey in Hi. apply Ok_inj in Hi. clear Hgrey.
  unfold byte in *.
  assert (0 <= r / 51 <= 5) by div_lia.
  assert (0 <= g / 51 <= 5) by div_lia.
  assert (0 <= b / 51 <= 5) by div_lia.
  subst i. generalize dependent (r / 51). generalize dependent (g / 51).
  generalize dependent (b / 51). clear. intros lb Hlb lg Hlg lr Hlr.
  replace (16 + lr * 36 + lg * 6 + lb - 16) with (lb + (lg + lr * 6) * 6)
    by lia.
  repeat split; div_lia.
Qed.

Lemma cube_index_decodes_witness :
  (34 - 16) / 36 = 0 / 51 /\
  ((34 - 16) / 6) mod 6 = 154 / 51 /\
  (34 - 16) mod 6 = 0 / 51.
Proof.
  apply (cube_index_decodes 0 154 0 34); unfold byte; try lia.
  vm_compute. reflexivity.
Defined.

(* ================================================================== *)
(** * Further properties of orla_to_ascii *)

(** X4. On an image of positive size the conversion returns a text only
    for a width of at least 1 whose height is at least 1, and the text it
    returns is never empty. *)
Theorem returned_text_is_never_empty (E : env)
        (path : str) (img : Image.t) (w : Z) (text : str) :
  files E path = Image.Picture img -> 0 < Image.width img -> 0 < Image.height img ->
  orla_to_ascii E path w = Ok text ->
  1 <= w /\ (exists h, target_height img w = Ok h /\ 1 <= h) /\ text <> [].
Proof.
  intros Hfile Hiw Hih Htext.
  destruct (text_run _ _ _ _ Htext) as (grid & Hg & ->).
  destruct (grid_run _ _ _ _ Hg) as (img0 & h & img' & Ho & Hh & Hr & Hrows).
  apply open_inv in Ho. rewrite Hfile in Ho. inversion Ho. subst img0.
  destruct (resize_ok (allocates E) img img' w h Hiw Hih Hr)
    as (Hw & Hh1 & _).
  split; [exact Hw|]. split; [exists h; split; assumption|].
  pose proof (for_each_length _ _ _ Hrows) as Hl. rewrite range_length in Hl.
  destruct grid as [| row rest]; [simpl in Hl; lia|].
  assert (Hrow : List.length row = Z.to_nat w).
  { pose proof (for_each_Forall _ (fun r => List.length r = Z.to_nat w) _ _
                  (fun y r _ => classify_line_length img' w y r) Hrows) as HF.
    now inversion HF. }
  destruct row as [| c row]; [simpl in Hrow; lia|].
  intros Hnil. apply (f_equal (@List.length N)) in Hnil.
  unfold render_grid in Hnil. cbn [map List.concat] in Hnil.
  match type of Hnil with
  | List.length (join ?s (?r :: ?t)) = _ =>
      pose proof (join_head_length s r t) as Hj
  end.
  pose proof (render_cell_length c) as Lc.
  unfold str, char in Hj, Hnil, Lc. rewrite Hnil in Hj.
  rewrite length_app in Hj. simpl in Hj. lia.
Qed.

Lemma returned_text_is_never_empty_witness :
  1 <= 2 /\ (exists h, target_height img2x2 2 = Ok h /\ 1 <= h) /\
  (render_cell (226%N, 34) ++ render_cell (226%N, 196))%list <> [].
Proof.
  apply (returned_text_is_never_empty (one_file logo_png img2x2) logo_png
           img2x2 2).
  - reflexivity.
  - simpl. lia.
  - simpl. lia.
  - vm_compute. reflexivity.
Defined.

Lemma classify_cases (p : pixel) (c : cell) :
  wf_pixel p -> classify p = Ok c ->
  c = (space, 16) \/ (fst c = 226%N /\ 16 <= snd c <= 231).
Proof.
  intros Hp Hc. destruct (Z.lt_ge_cases (alpha p) 128) as [Ha | Ha].
  - left. unfold classify in Hc.
    rewrite (classify_transparent ascii_chars p Ha) in Hc.
    symmetry. now apply Ok_inj.
  - right. rewrite (classify_opaque p Hp Ha) in Hc. apply Ok_inj in Hc.
    subst c. simpl. split; [reflexivity|].
    destruct Hp as (Hr & Hg & Hb & _). now apply color_spec_range.
Qed.

Lemma grid_cells (E : env)
        (path : str) (img : Image.t) (w : Z) (grid : list (list cell)) :
  files E path = Image.Picture img -> wf_image img ->
  orla_grid E path w = Ok grid ->
  Forall (Forall (fun c => c = (space, 16) \/
                           (fst c = 226%N /\ 16 <= snd c <= 231))) grid.
Proof.
  intros Hfile Hwf Hg.
  destruct (grid_run _ _ _ _ Hg) as (img0 & h & img' & Ho & Hh & Hr & Hrows).
  apply open_inv in Ho. rewrite Hfile in Ho. inversion Ho. subst img0.
  pose proof (resized_pixels_wf (allocates E) img img' w h Hwf Hr) as Hpx.
  refine (for_each_Forall _ _ _ _ _ Hrows). intros y row _ Hrow.
  unfold classify_line in Hrow.
  refine (for_each_Forall _ _ _ _ _ Hrow). intros x c _ Hc. cbv beta in Hc.
  destruct (Image.getpixel img' x y) as [p | e] eqn:Hp; [|discriminate Hc].
  cbn [bind] in Hc. apply (classify_cases p); [|exact Hc].
  unfold Image.getpixel in Hp.
  destruct (_ && _ && _ && _); [|discriminate Hp].
  apply Ok_inj in Hp. subst p. apply Hpx.
Qed.

(** X5. Every cell of a returned grid is either the transparent cell, a
    space with colour 16, or the first palette character with a colour of
    the cube, 16..231: no other glyph of the palette and no colour outside
    the cube is ever emitted. *)
Theorem cells_are_space_or_first_glyph (E : env)
        (path : str) (img : Image.t) (w : Z) (grid : list (list cell)) :
  files E path = Image.Picture img -> wf_image img ->
  orla_grid E path w = Ok grid ->
  Forall (Forall (fun c => c = (space, 16) \/
                           (fst c = 226%N /\ 16 <= snd c <= 231))) grid.
Proof. exact (grid_cells E path img w grid). Qed.

Lemma cells_are_space_or_first_glyph_witness :
  Forall (Forall (fun c => c = (space, 16) \/
                           (fst c = 226%N /\ 16 <= snd c <= 231)))
         [[(226%N, 34); (226%N, 196)]].
Proof.
  apply (cells_are_space_or_first_glyph (one_file logo_png img2x2) logo_png
           img2x2 2).
  - reflexivity.
  - exact img2x2_wf.
  - vm_compute. reflexivity.
Defined.

(** ** The lines of the text *)

Lemma not_in_app (c : N) (s t : str) :
  ~ In c s -> ~ In c t -> ~ In c (s ++ t)%list.
Proof. intros Hs Ht H. apply in_app_or in H. tauto. Qed.

Lemma cube_cell_no_newline (i : Z) :
  16 <= i <= 231 -> ~ In 10%N (render_cell (226%N, i)).
Proof.
  intros Hi H.
  assert (Hall : forallb (fun i => negb (existsb (N.eqb 10)
                                            (render_cell (226%N, i))))
                         (range 232) = true) by (vm_compute; reflexivity).
  rewrite forallb_forall in Hall.
  specialize (Hall i (range_In 232 i ltac:(lia))).
  apply negb_true_iff in Hall.
  assert (Hex : existsb (N.eqb 10) (render_cell (226%N, i)) = true).
  { apply existsb_exists. exists 10%N. split; [exact H | reflexivity]. }
  rewrite Hex in Hall. discriminate Hall.
Qed.

Lemma cell_no_newline (c : cell) :
  c = (space, 16) \/ (fst c = 226%N /\ 16 <= snd c <= 231) ->
  ~ In 10%N (render_cell c).
Proof.
  intros [-> | (Hg & Hi)].
  - intros H. vm_compute in H. repeat (destruct H as [H | H]; [discriminate H|]).
    exact H.
  - destruct c as [g i]. simpl in Hg, Hi. subst g.
    now apply cube_cell_no_newline.
Qed.

Lemma line_no_newline (row : list cell) :
  Forall (fun c => c = (space, 16) \/
                   (fst c = 226%N /\ 16 <= snd c <= 231)) row ->
  ~ In 10%N (List.concat (map render_cell row)).
Proof.
  induction 1 as [| c row Hc _ IH]; cbn [map List.concat]; [simpl; tauto|].
  apply not_in_app; [now apply cell_no_newline | exact IH].
Qed.

(** X6. A returned text consists of exactly [height] lines joined by
    single newlines, each line being the [width] cells of its row and
    holding no newline itself. *)
Theorem text_has_height_lines (E : env) (path : str)
        (img : Image.t) (w : Z) (text : str) :
  files E path = Image.Picture img -> wf_image img ->
  orla_to_ascii E path w = Ok text ->
  exists h lines,
    target_height img w = Ok h /\
    text = join newline lines /\
    List.length lines = Z.to_nat h /\
    Forall (fun line =>
              ~ In 10%N line /\
              exists cells, List.length cells = Z.to_nat w /\
                            line = List.concat (map render_cell cells))
           lines.
Proof.
  intros Hfile Hwf Htext.
  destruct (text_run _ _ _ _ Htext) as (grid & Hg & ->).
  pose proof (grid_cells _ _ _ _ _ Hfile Hwf Hg) as Hcells.
  destruct (grid_shape _ _ _ _ Hg) as (img0 & h & Ho & Hh & Hl & Hrows).
  apply open_inv in Ho. rewrite Hfile in Ho. inversion Ho. subst img0.
  exists h, (map (fun row => List.concat (map render_cell row)) grid).
  split; [exact Hh|]. split; [reflexivity|].
  split; [now rewrite length_map|].
  apply Forall_map. clear Hg Hl Htext.
  induction grid as [| row grid IH]; constructor.
  - inversion Hcells. inversion Hrows. subst.
    split; [now apply line_no_newline|]. now exists row.
  - inversion Hcells. inversion Hrows. subst. now apply IH.
Qed.

Lemma text_has_height_lines_witness :
  exists h lines,
    target_height img2x2 4 = Ok h /\
    (render_grid [[(226%N, 16); (226%N, 16); (226%N, 231); (226%N, 231)];
                  [(226%N, 34); (226%N, 34); (226%N, 196); (226%N, 196)]])
    = join newline lines /\
    List.length lines = Z.to_nat h /\
    Forall (fun line =>
              ~ In 10%N line /\
              exists cells, List.length cells = Z.to_nat 4 /\
                            line = List.concat (map render_cell cells))
           lines.
Proof.
  apply (text_has_height_lines (one_file logo_png img2x2) logo_png img2x2 4).
  - reflexivity.
  - exact img2x2_wf.
  - vm_compute. reflexivity.
Defined.

(* ================================================================== *)
(** * Further properties of the command line *)

Lemma main_nonempty (E : env) (prog : str)
      (args : list str) :
  main E (prog :: args) =
  match (image_path <- argv_at (prog :: args) 1 ;;
         width <- (if 2 <? Z.of_nat (List.length (prog :: args))
                   then a <- argv_at (prog :: args) 2 ;; py_int E a
                   else Ok 40) ;;
         orla_to_ascii E image_path width) with
  | Ok ascii_art => {| stdout := [ascii_art]; stderr := []; exit_status := 0 |}
  | Raise e => {| stdout := []; stderr := [Traceback e]; exit_status := 1 |}
  end.
Proof.
  unfold main.
  destruct (Z.of_nat (List.length (prog :: args)) <? 1) eqn:Hlen;
    [|reflexivity].
  apply Z.ltb_lt in Hlen. simpl List.length in Hlen. lia.
Qed.

(** X8. Without a width argument the program converts at width 40, and
    arguments after the width are ignored. *)
Theorem default_width_and_extra_arguments (E : env)
        (prog path : str) :
  main E [prog; path] = main E [prog; path; lit "40"] /\
  forall width_arg rest,
    main E (prog :: path :: width_arg :: rest)
    = main E [prog; path; width_arg].
Proof.
  split.
  - rewrite !main_nonempty. reflexivity.
  - intros width_arg rest. rewrite !main_nonempty.
    assert (H : (2 <? Z.of_nat (List.length
                                  (prog :: path :: width_arg :: rest)))
                = true).
    { apply Z.ltb_lt. simpl List.length. lia. }
    rewrite H. reflexivity.
Qed.
